(** * The stream translator of the Slack assistant

    A shallow embedding of [call_llm] (src/ai/llm_caller.py): the async
    generator that drives one turn of the ADK multi-agent runner and re-emits
    its raw events as [status] and [content] events.

    Layout: Python string primitives ([PyStr]), the ADK data the generator
    probes ([types], [Event]), a small generator monad ([Gen]) in which the
    loop body is transcribed statement by statement, the whole call
    ([call_llm]), and then the properties.

    After these come the cached runner ([get_adk_runner]), the tools of the
    agents (src/ai/tools.py) and the Slack listeners (src/listeners), each
    embedded in the same way, with their properties at the end. *)

From stdpp Require Import base option list sorting strings gmap.
From Stdlib Require Import Ascii NArith.
From Stdlib Require Import DecimalString.

Local Open Scope N_scope.

(** ** Python string primitives

    Strings are byte strings; the case functions are Python's on the ASCII
    range, and leave every other byte alone. *)
Module PyStr.

Definition is_upper (c : ascii) : bool :=
  let n := N_of_ascii c in (65 <=? n) && (n <=? 90).

Definition is_lower (c : ascii) : bool :=
  let n := N_of_ascii c in (97 <=? n) && (n <=? 122).

Definition is_cased (c : ascii) : bool := is_upper c || is_lower c.

Definition upper (c : ascii) : ascii :=
  if is_lower c then ascii_of_N (N_of_ascii c - 32) else c.

Definition lower (c : ascii) : ascii :=
  if is_upper c then ascii_of_N (N_of_ascii c + 32) else c.

(** [bool(s)]: a string is truthy unless it is empty. *)
Definition truthy (s : string) : bool :=
  match s with EmptyString => false | String _ _ => true end.

(** [s.replace(old, new)] for one-character [old] and [new]. *)
Fixpoint replace (old new : ascii) (s : string) : string :=
  match s with
  | EmptyString => EmptyString
  | String c rest =>
      String (if Ascii.eqb c old then new else c) (replace old new rest)
  end.

(** [s.title()]: CPython walks the string with one flag, whether the
    previous character was cased; a character after a cased one is
    lowered, any other is put in title case. *)
Fixpoint title_from (previous_is_cased : bool) (s : string) : string :=
  match s with
  | EmptyString => EmptyString
  | String c rest =>
      String (if previous_is_cased then lower c else upper c)
             (title_from (is_cased c) rest)
  end.

Definition title (s : string) : string := title_from false s.

(** [s.lower()] and [s.capitalize()], used to describe [title] by words. *)
Fixpoint lower_all (s : string) : string :=
  match s with
  | EmptyString => EmptyString
  | String c rest => String (lower c) (lower_all rest)
  end.

Definition capitalize (s : string) : string :=
  match s with
  | EmptyString => EmptyString
  | String c rest => String (upper c) (lower_all rest)
  end.

(** [s.split(sep)] for a one-character [sep]; never the empty list. *)
Fixpoint split (sep : ascii) (s : string) : list string :=
  match s with
  | EmptyString => [EmptyString]
  | String c rest =>
      if Ascii.eqb c sep then EmptyString :: split sep rest
      else match split sep rest with
           | w :: ws => String c w :: ws
           | [] => [String c EmptyString]
           end
  end.

(** [sep.join(words)]. *)
Fixpoint join (sep : string) (words : list string) : string :=
  match words with
  | [] => EmptyString
  | [w] => w
  | w :: ws => w +:+ sep +:+ join sep ws
  end.

(** [f"{x}"] of an optional string: [None] prints as its name. *)
Definition fmt (x : option string) : string := default "None" x.

End PyStr.

(** ** The ADK data the generator reads *)

(** [google.genai.types]: a part carries its text or nothing; a content is a
    role and its parts ([parts] absent and [parts] empty are both falsy, so
    one list stands for both). *)
Module types.
Record Part := { text : option string }.
Record Content := { role : option string; parts : list Part }.
End types.

(** A function call as line 116 sees it: an object with a [name], or
    anything else, of which [str(func_call)] is taken. *)
Inductive FunctionCall :=
  | NamedCall (name : string)
  | OpaqueCall (str : string).

Record EventActions := { transfer_to_agent : option string }.

(** A raw event. [function_calls] is what [event.get_function_calls()]
    returns, the empty list when the event has no such method; [actions] is
    [None] when the attribute is absent or falsy. *)
Record Event := {
  author : option string;
  content : option types.Content;
  function_calls : list FunctionCall;
  actions : option EventActions
}.

(** ** What the generator yields *)

(** [{"type": "status", "text": t}] and [{"type": "content", "text": t}]. *)
Inductive LLMEvent :=
  | Status (text : string)
  | Content (text : string).

(** The four [yield] statements of the loop body (lines 107, 123, 135, 143). *)
Inductive Rule := AgentSwitch | ToolCall | HandOff | ContentExtraction.

Global Instance Rule_eq_dec : EqDecision Rule.
Proof. solve_decision. Defined.

(** A yielded event together with the statement that yielded it. *)
Record Emitted := { site : Rule; event : LLMEvent }.

(** The two locals that live across iterations (lines 87-88). *)
Record TranslatorState := {
  current_agent : option string;
  has_started_streaming_content : bool
}.

Definition initial_state : TranslatorState :=
  {| current_agent := None; has_started_streaming_content := false |}.

(** ** The generator monad

    A statement of the loop body reads and writes the two locals and may
    yield; [Gen A] is such a statement with a result of type [A]. *)
Definition Gen (A : Type) : Type :=
  TranslatorState -> A * TranslatorState * list Emitted.

Definition ret {A} (a : A) : Gen A := fun st => (a, st, []).

Definition bind {A B} (m : Gen A) (k : A -> Gen B) : Gen B :=
  fun st =>
    let '(a, st1, out1) := m st in
    let '(b, st2, out2) := k a st1 in
    (b, st2, out1 ++ out2).

Declare Scope gen_scope.
Delimit Scope gen_scope with gen.
Notation "x <- m ;; k" := (bind m (fun x => k))
  (at level 100, m at next level, k at level 200, right associativity)
  : gen_scope.
Notation "m ;; k" := (bind m (fun _ => k))
  (at level 100, k at level 200, right associativity) : gen_scope.

Definition yield (r : Rule) (e : LLMEvent) : Gen unit :=
  fun st => (tt, st, [{| site := r; event := e |}]).

Definition get_current_agent : Gen (option string) :=
  fun st => (current_agent st, st, []).

Definition set_current_agent (a : option string) : Gen unit :=
  fun st => (tt, {| current_agent := a;
                    has_started_streaming_content :=
                      has_started_streaming_content st |}, []).

Definition get_has_started : Gen bool :=
  fun st => (has_started_streaming_content st, st, []).

Definition set_has_started (b : bool) : Gen unit :=
  fun st => (tt, {| current_agent := current_agent st;
                    has_started_streaming_content := b |}, []).

(** [if c: body] *)
Definition when (c : bool) (body : Gen unit) : Gen unit :=
  if c then body else ret tt.

(** [for x in xs: body(x)] *)
Fixpoint for_each {A} (xs : list A) (body : A -> Gen unit) : Gen unit :=
  match xs with
  | [] => ret tt
  | x :: rest => bind (body x) (fun _ => for_each rest body)
  end.

Definition exec {A} (m : Gen A) (st : TranslatorState) : TranslatorState :=
  snd (fst (m st)).

Definition output {A} (m : Gen A) (st : TranslatorState) : list Emitted :=
  snd (m st).

(** ** The loop body (lines 100-143) *)

(** Truthiness of an optional string: [None] and [""] are falsy. *)
Definition truthy (x : option string) : bool :=
  match x with Some s => PyStr.truthy s | None => false end.

Definition tool_name (func_call : FunctionCall) : string :=
  match func_call with
  | NamedCall name => name
  | OpaqueCall str => str
  end.

(** Line 120: [tool_name.replace("_", " ").title()]. *)
Definition readable_name (tool_name : string) : string :=
  PyStr.title (PyStr.replace "_" " " tool_name).

Local Open Scope gen_scope.

(** Lines 100-107: detect agent changes. *)
Definition detect_agent_change (ev : Event) : Gen unit :=
  current <- get_current_agent ;;
  when (truthy (author ev)
        && bool_decide (author ev ≠ Some "user")
        && bool_decide (author ev ≠ current))
    (set_current_agent (author ev) ;;
     started <- get_has_started ;;
     when (negb started)
       (current <- get_current_agent ;;
        yield AgentSwitch (Status (PyStr.fmt current +:+ " is working...")))).

(** Lines 109-123: detect tool calls. The guard is read once, before the
    loop over the calls. *)
Definition detect_tool_calls (ev : Event) : Gen unit :=
  started <- get_has_started ;;
  when (bool_decide (function_calls ev ≠ []) && negb started)
    (for_each (function_calls ev) (fun func_call =>
       yield ToolCall
         (Status ("Using " +:+ readable_name (tool_name func_call) +:+ "...")))).

(** Lines 125-135: detect agent transfers. *)
Definition detect_agent_transfer (ev : Event) : Gen unit :=
  match actions ev with
  | Some acts =>
      when (truthy (transfer_to_agent acts))
        (yield HandOff
           (Status ("Consulting " +:+ PyStr.fmt (transfer_to_agent acts) +:+ "...")))
  | None => ret tt
  end.

(** Lines 141-143: the body of the loop over the parts. *)
Definition yield_part (part : types.Part) : Gen unit :=
  when (truthy (types.text part))
    (set_has_started true ;;
     yield ContentExtraction (Content (PyStr.fmt (types.text part)))).

(** Lines 137-143: stream all non-user content. *)
Definition stream_content (ev : Event) : Gen unit :=
  match content ev with
  | Some c =>
      when (bool_decide (types.parts c ≠ [])
            && bool_decide (author ev ≠ Some "user"))
        (for_each (types.parts c) yield_part)
  | None => ret tt
  end.

Definition on_event (ev : Event) : Gen unit :=
  detect_agent_change ev ;;
  detect_tool_calls ev ;;
  detect_agent_transfer ev ;;
  stream_content ev.

(** [async for event in runner.run_async(...)]: the body runs once per raw
    event, in arrival order. Every yielded event is paired with the index of
    the raw event being processed. *)
Fixpoint consume (i : nat) (events : list Event) (st : TranslatorState)
  : TranslatorState * list (nat * Emitted) :=
  match events with
  | [] => (st, [])
  | ev :: rest =>
      let '(_, st1, out) := on_event ev st in
      let '(st2, outs) := consume (S i) rest st1 in
      (st2, map (pair i) out ++ outs)
  end.

(** The translator on a raw event sequence, from the fresh locals. *)
Definition translate (events : list Event) : list (nat * Emitted) :=
  snd (consume 0 events initial_state).

Definition state_after (events : list Event) : TranslatorState :=
  fst (consume 0 events initial_state).

Local Close Scope gen_scope.

(** ** The whole call (lines 41-143) *)

(** What [create_session] may raise. [except Exception] catches the first
    two; an exception that derives from [BaseException] only (a cancellation,
    a keyboard interrupt) is not caught by it. *)
Inductive PyExc :=
  | AlreadyExistsError (message : string)
  | OtherException (class message : string)
  | BaseExceptionOnly (class : string)
  | KeyError (key : string).

Definition isinstance_Exception (e : PyExc) : bool :=
  match e with
  | BaseExceptionOnly _ => false
  | _ => true
  end.

(** The runner, an external collaborator: what [create_session] raises
    ([None]: it returns) and the raw events [run_async] produces. *)
Record Runner := {
  create_session : string -> string -> string -> option PyExc;
  run_async : string -> string -> types.Content -> list Event
}.

Inductive EngineCall :=
  | CreateSession (app_name user_id session_id : string)
  | RunAsync (user_id session_id : string) (new_message : types.Content).

(** One call of [call_llm]: the calls it made on the runner, and either the
    exception it raised or all it yielded. *)
Record Turn := {
  engine_calls : list EngineCall;
  outcome : PyExc + list (nat * Emitted)
}.

Definition _app_name : string := "slack_ai_agent".

(** Lines 66-72: [try: create_session(...) except Exception: pass]; the
    result is the exception that escapes, if any. *)
Definition ensure_session (runner : Runner) (user_id session_id : string)
  : option PyExc :=
  match create_session runner _app_name user_id session_id with
  | Some e => if isinstance_Exception e then None else Some e
  | None => None
  end.

(** Lines 75-79. A message is a dict from strings to strings. *)
Definition last_message (messages_in_thread : list (gmap string string))
  : gmap string string :=
  match last messages_in_thread with
  | Some m => m
  | None => {[ "role" := "user"; "content" := "" ]}
  end.

(** Lines 62-63. *)
Definition resolve_session_id (user_id : string) (session_id : option string)
  : string :=
  match session_id with
  | None => "session_" +:+ user_id
  | Some s => s
  end.

Definition call_llm (runner : Runner)
    (messages_in_thread : list (gmap string string))
    (user_id : string) (session_id : option string) : Turn :=
  let session_id := resolve_session_id user_id session_id in
  let created := [CreateSession _app_name user_id session_id] in
  match ensure_session runner user_id session_id with
  | Some e => {| engine_calls := created; outcome := inl e |}
  | None =>
      match last_message messages_in_thread !! "content" with
      | None => {| engine_calls := created; outcome := inl (KeyError "content") |}
      | Some text =>
          let new_message :=
            {| types.role := Some "user";
               types.parts := [ {| types.text := Some text |} ] |} in
          {| engine_calls := created ++ [RunAsync user_id session_id new_message];
             outcome :=
               inr (translate (run_async runner user_id session_id new_message)) |}
      end
  end.

(** The yielded events alone, as the caller's [async for] receives them. *)
Definition events_of (out : list (nat * Emitted)) : list LLMEvent :=
  map (fun x => event (snd x)) out.

Definition received (t : Turn) : option (list LLMEvent) :=
  match outcome t with
  | inl _ => None
  | inr out => Some (events_of out)
  end.

(** ** The loop body, statement by statement

    What each statement of the body yields for a raw event and how it
    changes the locals, written as plain functions; the lemmas below show
    that the body computes exactly these. *)

Definition switches (ev : Event) (st : TranslatorState) : bool :=
  truthy (author ev)
  && bool_decide (author ev ≠ Some "user")
  && bool_decide (author ev ≠ current_agent st).

(** The target a raw event hands control to, as line 126-131 test it. *)
Definition transfer_target (ev : Event) : option string :=
  match actions ev with
  | Some acts => if truthy (transfer_to_agent acts) then transfer_to_agent acts else None
  | None => None
  end.

(** The texts a content loop yields: those of the parts whose [text] is
    truthy, in part order. *)
Definition nonempty_texts (ps : list types.Part) : list string :=
  omap (fun p => match types.text p with
                 | Some s => if PyStr.truthy s then Some s else None
                 | None => None
                 end) ps.

(** The texts the content statement yields for a raw event. *)
Definition content_texts (ev : Event) : list string :=
  match content ev with
  | Some c => if bool_decide (author ev ≠ Some "user")
              then nonempty_texts (types.parts c) else []
  | None => []
  end.

Definition agent_status (ev : Event) (st : TranslatorState) : list Emitted :=
  if switches ev st && negb (has_started_streaming_content st)
  then [ {| site := AgentSwitch;
            event := Status (PyStr.fmt (author ev) +:+ " is working...") |} ]
  else [].

Definition tool_statuses (ev : Event) (st : TranslatorState) : list Emitted :=
  if has_started_streaming_content st then []
  else map (fun fc => {| site := ToolCall;
                         event := Status ("Using " +:+ readable_name (tool_name fc)
                                          +:+ "...") |})
           (function_calls ev).

Definition handoff_status (ev : Event) : list Emitted :=
  match transfer_target ev with
  | Some target => [ {| site := HandOff;
                        event := Status ("Consulting " +:+ target +:+ "...") |} ]
  | None => []
  end.

Definition content_chunks (ev : Event) : list Emitted :=
  map (fun t => {| site := ContentExtraction; event := Content t |})
      (content_texts ev).

Definition next_state (ev : Event) (st : TranslatorState) : TranslatorState :=
  {| current_agent := if switches ev st then author ev else current_agent st;
     has_started_streaming_content :=
       has_started_streaming_content st || bool_decide (content_texts ev ≠ []) |}.

Definition from_site (r : Rule) (out : list Emitted) : list Emitted :=
  filter (fun x => site x = r) out.

(** The same raw event under another author. *)
Definition with_author (a : option string) (ev : Event) : Event :=
  {| author := a; content := content ev; function_calls := function_calls ev;
     actions := actions ev |}.

(** ** Vocabulary of the properties *)

Definition is_content (x : Emitted) : Prop := exists t, event x = Content t.

(** A status of the agent-switch statement or of the tool-call statement. *)
Definition guarded_status (x : Emitted) : Prop :=
  site x = AgentSwitch \/ site x = ToolCall.

(** Nothing guarded comes later than a content. *)
Definition content_closes {A} (proj : A -> Emitted) (l : list A) : Prop :=
  forall before c after,
    l = before ++ c :: after -> is_content (proj c) ->
    Forall (fun x => ~ guarded_status (proj x)) after.

(** The statements of the loop body, in the order they run. *)
Definition rank (r : Rule) : nat :=
  match r with
  | AgentSwitch => 0
  | ToolCall => 1
  | HandOff => 2
  | ContentExtraction => 3
  end.

(** [x] is yielded for an earlier raw event than [y], or for the same raw
    event by a statement that does not run later. *)
Definition precedes (x y : nat * Emitted) : Prop :=
  (fst x < fst y)%nat
  \/ (fst x = fst y /\ (rank (site (snd x)) <= rank (site (snd y)))%nat).

Fixpoint all_chars (p : ascii -> bool) (s : string) : bool :=
  match s with
  | EmptyString => true
  | String c rest => p c && all_chars p rest
  end.

(** A letter or the separator. *)
Definition name_char (c : ascii) : bool := PyStr.is_cased c || Ascii.eqb c "_".

(** The readable name as the words say it: split at the separator,
    capitalize each word, join with spaces. *)
Definition readable_name_by_words (tool_name : string) : string :=
  PyStr.join " " (map PyStr.capitalize (PyStr.split "_" tool_name)).

(** The exception the caller sees, if any. *)
Definition surfaced (t : Turn) : option PyExc :=
  match outcome t with
  | inl e => Some e
  | inr _ => None
  end.

(** The message handed to [run_async], if it was called. *)
Definition new_message_of (c : EngineCall) : option types.Content :=
  match c with
  | RunAsync _ _ new_message => Some new_message
  | CreateSession _ _ _ => None
  end.

Definition forwarded (t : Turn) : option types.Content :=
  head (omap new_message_of (engine_calls t)).

Definition call_session_id (c : EngineCall) : string :=
  match c with
  | CreateSession _ _ session_id => session_id
  | RunAsync _ session_id _ => session_id
  end.

(** The same runner with a session service that never raises. *)
Definition quiet (runner : Runner) : Runner :=
  {| create_session := fun _ _ _ => None; run_async := run_async runner |}.

Definition user_message (text : string) : types.Content :=
  {| types.role := Some "user"; types.parts := [ {| types.text := Some text |} ] |}.

(** ** Sample raw events, histories and runners *)

Definition agent_event (a : string) : Event :=
  {| author := Some a; content := None; function_calls := []; actions := None |}.

Definition text_event (a : string) (t : string) : Event :=
  {| author := Some a;
     content := Some {| types.role := Some "model";
                        types.parts := [ {| types.text := Some t |} ] |};
     function_calls := []; actions := None |}.

Definition call_event (a : string) (names : list string) : Event :=
  {| author := Some a; content := None;
     function_calls := map NamedCall names; actions := None |}.

Definition transfer_event (target : string) : Event :=
  {| author := None; content := None; function_calls := [];
     actions := Some {| transfer_to_agent := Some target |} |}.

Definition scenario_A : list Event :=
  [ agent_event "MathAgent"; call_event "MathAgent" ["calculate"];
    text_event "MathAgent" "Result: 4" ].

Definition scenario_B : list Event :=
  [ text_event "A" "partial"; transfer_event "B"; text_event "B" " more" ].

Definition two_part_event : Event :=
  {| author := Some "TextAgent";
     content := Some {| types.role := Some "model";
                        types.parts := [ {| types.text := Some "Hello" |};
                                         {| types.text := None |};
                                         {| types.text := Some "" |};
                                         {| types.text := Some " world" |} ] |};
     function_calls := []; actions := None |}.

Definition streaming_state : TranslatorState :=
  {| current_agent := Some "A"; has_started_streaming_content := true |}.

(** A runner that creates the session and plays the given raw events. *)
Definition scripted (events : list Event) : Runner :=
  {| create_session := fun _ _ _ => None; run_async := fun _ _ _ => events |}.

Definition echo_runner : Runner :=
  {| create_session := fun _ _ _ => None;
     run_async := fun _ _ new_message =>
       [ {| author := Some "CoordinatorAgent"; content := Some new_message;
            function_calls := []; actions := None |} ] |}.

(** A runner whose session service is down. *)
Definition failing_runner : Runner :=
  {| create_session := fun _ _ _ =>
       Some (OtherException "RuntimeError" "session store unavailable");
     run_async := fun _ _ _ => scenario_A |}.

Definition thread_history : list (gmap string string) :=
  [ {[ "role" := "user"; "content" := "what is 2+2?" ]};
    {[ "role" := "assistant"; "content" := "4" ]};
    {[ "role" := "user"; "content" := "and 3+3?" ]} ].

(** ** The cached runner (lines 27-38)

    [get_adk_runner] keeps the runner in the module global [_runner] and
    builds it on first use. The agent and the runner class are external; every
    construction [InMemoryRunner(agent=..., app_name=...)] is recorded. *)
Section runner_cache.
Context {Agent R : Type}.
Variable get_root_agent : Agent.
Variable InMemoryRunner : Agent -> string -> R.

Record ModuleState := {
  _runner : option R;
  constructions : list (Agent * string)
}.

Definition module_loaded : ModuleState :=
  {| _runner := None; constructions := [] |}.

Definition get_adk_runner (g : ModuleState) : R * ModuleState :=
  match _runner g with
  | None =>
      let root_agent := get_root_agent in
      let r := InMemoryRunner root_agent _app_name in
      (r, {| _runner := Some r;
             constructions := constructions g ++ [(root_agent, _app_name)] |})
  | Some r => (r, g)
  end.

(** [n] calls in a row: what each returned, and the globals afterwards. *)
Fixpoint get_adk_runner_times (n : nat) (g : ModuleState) : list R * ModuleState :=
  match n with
  | O => ([], g)
  | S k =>
      let '(r, g1) := get_adk_runner g in
      let '(rs, g2) := get_adk_runner_times k g1 in
      (r :: rs, g2)
  end.

End runner_cache.

(** ** More vocabulary *)

(** The text of a content event. *)
Definition content_of (e : LLMEvent) : option string :=
  match e with
  | Content t => Some t
  | Status _ => None
  end.

Definition text_of (e : LLMEvent) : string :=
  match e with
  | Content t => t
  | Status t => t
  end.

(** The agent-switch statuses of a run, in order. *)
Definition announcements (out : list (nat * Emitted)) : list LLMEvent :=
  events_of (filter (fun x => site (snd x) = AgentSwitch) out).

(** No two neighbours of a list are equal. *)
Fixpoint no_repeat {A} (l : list A) : Prop :=
  match l with
  | [] => True
  | x :: rest =>
      match rest with
      | [] => True
      | y :: _ => x <> y
      end /\ no_repeat rest
  end.

(** The status that announced the current agent, while statuses are shown. *)
Definition last_announcement (st : TranslatorState) : list LLMEvent :=
  match current_agent st with
  | Some a => [Status (a +:+ " is working...")]
  | None => []
  end.

(** * The tools of the agents (src/ai/tools.py) *)

(** ** More Python string primitives

    A string is read as a sequence of characters; the case functions, the
    white space test and the lengths are Python's for ASCII text, which the
    properties below assume where it matters. *)
Module PyText.

Definition is_ascii (c : ascii) : bool := N_of_ascii c <? 128.

Definition ascii_text (s : string) : bool := all_chars is_ascii s.

(** [s.upper()]. *)
Fixpoint upper_all (s : string) : string :=
  match s with
  | EmptyString => EmptyString
  | String c rest => String (PyStr.upper c) (upper_all rest)
  end.

(** [s[::-1]]. *)
Definition reverse (s : string) : string :=
  String.string_of_list_ascii (rev (String.list_ascii_of_string s)).

(** [c.isspace()] on ASCII: tab to carriage return, the four separators
    0x1c-0x1f, and the space. *)
Definition is_space (c : ascii) : bool :=
  let n := N_of_ascii c in ((9 <=? n) && (n <=? 13)) || ((28 <=? n) && (n <=? 32)).

(** [s.count(c)] for a one-character [c]. *)
Fixpoint count_char (c : ascii) (s : string) : nat :=
  match s with
  | EmptyString => 0%nat
  | String d rest => ((if Ascii.eqb d c then 1 else 0) + count_char c rest)%nat
  end.

(** [s.replace(c, "")] for a one-character [c]. *)
Fixpoint remove_char (c : ascii) (s : string) : string :=
  match s with
  | EmptyString => EmptyString
  | String d rest =>
      if Ascii.eqb d c then remove_char c rest else String d (remove_char c rest)
  end.

Definition cons_word (w : string) (ws : list string) : list string :=
  match w with
  | EmptyString => ws
  | String _ _ => w :: ws
  end.

(** The word that starts at the head of [s], if any, and the words after it. *)
Fixpoint words_from (s : string) : string * list string :=
  match s with
  | EmptyString => (EmptyString, [])
  | String c rest =>
      let '(w, ws) := words_from rest in
      if is_space c then (EmptyString, cons_word w ws) else (String c w, ws)
  end.

(** [s.split()]: the maximal runs of characters that are not white space. *)
Definition split_whitespace (s : string) : list string :=
  let '(w, ws) := words_from s in cons_word w ws.

(** [s.lstrip()], [s.rstrip()], [s.strip()]. *)
Fixpoint lstrip (s : string) : string :=
  match s with
  | EmptyString => EmptyString
  | String c rest => if is_space c then lstrip rest else s
  end.

Fixpoint rstrip (s : string) : string :=
  match s with
  | EmptyString => EmptyString
  | String c rest =>
      match rstrip rest with
      | EmptyString => if is_space c then EmptyString else String c EmptyString
      | String d r => String c (String d r)
      end
  end.

Definition strip (s : string) : string := lstrip (rstrip s).

(** [s.startswith(p)]. *)
Fixpoint startswith (p s : string) : bool :=
  match p, s with
  | EmptyString, _ => true
  | String _ _, EmptyString => false
  | String a p', String b s' => Ascii.eqb a b && startswith p' s'
  end.

(** [s.split(sep)] for a non-empty [sep]: the text is cut at each occurrence
    of [sep], found from the left and not overlapping; [skip] counts the
    characters of a found occurrence still to pass. *)
Fixpoint split_from (sep : string) (skip : nat) (s : string) : list string :=
  match s with
  | EmptyString => [EmptyString]
  | String c rest =>
      match skip with
      | S k => split_from sep k rest
      | O =>
          if startswith sep s
          then EmptyString :: split_from sep (String.length sep - 1) rest
          else match split_from sep 0 rest with
               | w :: ws => String c w :: ws
               | [] => [String c EmptyString]
               end
      end
  end.

Definition split_str (sep s : string) : list string := split_from sep 0 s.

(** [str(n)] for a natural number. *)
Definition str_of_nat (n : nat) : string :=
  NilEmpty.string_of_uint (Nat.to_uint n).

End PyText.

(** ** Result dictionaries *)

(** The values the tools put in their result dictionaries. *)
Inductive PyVal :=
  | VStr (s : string)
  | VInt (n : Z)
  | VList (items : list string).

(** ** [format_text] (lines 54-88) *)

Definition format_text (text format_type : string) : gmap string PyVal :=
  let format_type := PyStr.lower_all format_type in
  let done (formatted : string) : gmap string PyVal :=
    {[ "status" := VStr "success"; "original" := VStr text;
       "formatted" := VStr formatted; "format_type" := VStr format_type ]} in
  if bool_decide (format_type = "uppercase") then done (PyText.upper_all text)
  else if bool_decide (format_type = "lowercase") then done (PyStr.lower_all text)
  else if bool_decide (format_type = "title") then done (PyStr.title text)
  else if bool_decide (format_type = "reverse") then done (PyText.reverse text)
  else
    {[ "status" := VStr "error";
       "message" :=
         VStr ("Unknown format type: " +:+ format_type
               +:+ ". Use 'uppercase', 'lowercase', 'title', or 'reverse'.") ]}.

(** ** [count_words] (lines 91-110) *)

Definition count_words (text : string) : gmap string PyVal :=
  let words := PyText.split_whitespace text in
  let sentences :=
    (PyText.count_char "." text + PyText.count_char "!" text
     + PyText.count_char "?" text)%nat in
  {[ "status" := VStr "success";
     "word_count" := VInt (Z.of_nat (length words));
     "character_count" := VInt (Z.of_nat (String.length text));
     "character_count_no_spaces" :=
       VInt (Z.of_nat (String.length (PyText.remove_char " " text)));
     "sentence_count" :=
       VInt (Z.of_nat (if (0 <? sentences)%nat then sentences else 1%nat)) ]}.

(** ** [create_list] (lines 113-133) *)

(** Line 124: the stripped pieces that are not empty. *)
Definition item_list_of (pieces : list string) : list string :=
  omap (fun item => if PyStr.truthy (PyText.strip item)
                    then Some (PyText.strip item) else None) pieces.

(** Line 126: ["{i + 1}. {item}"] for each item, joined by new lines. *)
Definition formatted_list_of (item_list : list string) : string :=
  PyStr.join (String "010" EmptyString)
    (imap (fun i item => PyText.str_of_nat (i + 1) +:+ ". " +:+ item) item_list).

(** [items.split(separator)] raises [ValueError] on an empty separator, and
    nothing in [create_list] catches it. *)
Definition create_list (items separator : string) : PyExc + gmap string PyVal :=
  match separator with
  | EmptyString => inl (OtherException "ValueError" "empty separator")
  | String _ _ =>
      let item_list := item_list_of (PyText.split_str separator items) in
      let formatted_list := formatted_list_of item_list in
      inr {[ "status" := VStr "success";
             "item_count" := VInt (Z.of_nat (length item_list));
             "items" := VList item_list;
             "formatted_list" := VStr formatted_list ]}
  end.

(** ** [calculate] (lines 29-51)

    [eval] is Python's; what it does with an expression is given from
    outside: it returns a value, raises an [Exception] whose [str] is given,
    or raises something that is not an [Exception]. *)
Inductive EvalOutcome (V : Type) :=
  | EvalValue (v : V)
  | EvalException (str_e : string)
  | EvalBaseException (class : string).
Arguments EvalValue {V} v.
Arguments EvalException {V} str_e.
Arguments EvalBaseException {V} class.

Inductive CalcVal (V : Type) :=
  | CStr (s : string)
  | CResult (v : V).
Arguments CStr {V} s.
Arguments CResult {V} v.

(** Line 41: [set("0123456789+-*/().  ")]. *)
Definition allowed_chars : list ascii :=
  String.list_ascii_of_string "0123456789+-*/().  ".

Definition all_allowed (expression : string) : bool :=
  all_chars (fun c => bool_decide (c ∈ allowed_chars)) expression.

(** One call of [calculate]: the expressions handed to [eval], and the
    dictionary returned or the exception that escapes. *)
Record Calculation (V : Type) := {
  evaluated : list string;
  calc_result : PyExc + gmap string (CalcVal V)
}.
Arguments evaluated {V} _.
Arguments calc_result {V} _.

Definition calculate {V} (eval : string -> EvalOutcome V) (expression : string)
  : Calculation V :=
  if negb (all_allowed expression) then
    {| evaluated := [];
       calc_result :=
         inr {[ "status" := CStr "error";
                "message" :=
                  CStr "Invalid characters in expression. Only numbers and basic operators (+, -, *, /, parentheses) are allowed." ]} |}
  else
    {| evaluated := [expression];
       calc_result :=
         match eval expression with
         | EvalValue result =>
             inr {[ "status" := CStr "success";
                    "expression" := CStr expression;
                    "result" := CResult result ]}
         | EvalException str_e =>
             inr {[ "status" := CStr "error";
                    "message" := CStr ("Error evaluating expression: " +:+ str_e) ]}
         | EvalBaseException class => inl (BaseExceptionOnly class)
         end |}.

(** What [format_text] puts under "formatted" for each of the four types. *)
Definition formatting (format_type text : string) : option string :=
  if bool_decide (format_type = "uppercase") then Some (PyText.upper_all text)
  else if bool_decide (format_type = "lowercase") then Some (PyStr.lower_all text)
  else if bool_decide (format_type = "title") then Some (PyStr.title text)
  else if bool_decide (format_type = "reverse") then Some (PyText.reverse text)
  else None.

(** An [eval] for the sample runs: it knows one sum. *)
Definition sample_eval (expression : string) : EvalOutcome Z :=
  if bool_decide (expression = "2 + 2") then EvalValue 4%Z
  else EvalException "invalid syntax".

(** * The listeners (src/listeners) *)

(** [str(e)], as the handlers print an exception: a [KeyError] prints its
    key between quotes, the others their message. *)
Definition str_exc (e : PyExc) : string :=
  match e with
  | AlreadyExistsError message => message
  | OtherException _ message => message
  | BaseExceptionOnly _ => ""
  | KeyError key => "'" +:+ key +:+ "'"
  end.

(** [context]: the attributes of the Bolt context the handlers read. *)
Module BoltContext.
Record t := {
  team_id : string;
  user_id : string;
  channel_id : string;
  thread_ts : string
}.
End BoltContext.

Section listeners.

(** The blocks [create_feedback_block()] returns; the function is in
    [listeners/views], outside the sources at hand. *)
Context {Blocks : Type}.
Variable create_feedback_block : Blocks.

(** The calls the handlers make on the Slack client and on the Bolt
    utilities. Logging is left out. *)
Inductive SlackCall :=
  | SetStatus (status : string) (loading_messages : option (list string))
  | AssistantThreadsSetStatus
      (channel_id thread_ts status : string) (loading_messages : list string)
  | ConversationsReplies (channel ts oldest : string) (limit : nat)
  | ChatStream (channel recipient_team_id recipient_user_id thread_ts : string)
  | StreamerAppend (markdown_text : string)
  | StreamerStop (blocks : Blocks)
  | Say (text : string)
  | SetSuggestedPrompts (prompts : list (gmap string string)).

(** What a handler does, in order: calls on Slack and calls on the runner. *)
Inductive Effect :=
  | Slack (c : SlackCall)
  | Engine (c : EngineCall).

(** The world a handler runs in: which Slack calls raise, and what
    [conversations_replies] answers (the "messages" of the response). *)
Record World := {
  raises : SlackCall -> option PyExc;
  conversations_replies :
    string -> string -> string -> nat -> list (gmap string string)
}.

(** A handler step: it extends the effects so far and returns or raises. *)
Definition Act (A : Type) : Type := list Effect -> (PyExc + A) * list Effect.

Definition act_ret {A} (a : A) : Act A := fun done => (inr a, done).

Definition act_raise {A} (e : PyExc) : Act A := fun done => (inl e, done).

Definition act_bind {A B} (m : Act A) (k : A -> Act B) : Act B :=
  fun done =>
    match m done with
    | (inl e, done1) => (inl e, done1)
    | (inr a, done1) => k a done1
    end.

Declare Scope act_scope.
Delimit Scope act_scope with act.
Notation "x <- m ;; k" := (act_bind m (fun x => k))
  (at level 100, m at next level, k at level 200, right associativity)
  : act_scope.
Notation "m ;; k" := (act_bind m (fun _ => k))
  (at level 100, k at level 200, right associativity) : act_scope.
Local Open Scope act_scope.

(** A call on Slack: it is made, and it returns or raises. *)
Definition call (w : World) (c : SlackCall) : Act unit :=
  fun done =>
    (match raises w c with Some e => inl e | None => inr tt end,
     done ++ [Slack c]).

(** [d[key]]. *)
Definition item (d : gmap string string) (key : string) : Act string :=
  match d !! key with
  | Some v => act_ret v
  | None => act_raise (KeyError key)
  end.

(** [try: body except Exception as e: handler(e)]. *)
Definition try_except (body : Act unit) (handler : PyExc -> Act unit) : Act unit :=
  fun done =>
    match body done with
    | (inl e, done1) =>
        if isinstance_Exception e then handler e done1 else (inl e, done1)
    | (inr a, done1) => (inr a, done1)
    end.

Fixpoint act_for_each {A} (xs : list A) (body : A -> Act unit) : Act unit :=
  match xs with
  | [] => act_ret tt
  | x :: rest => body x ;; act_for_each rest body
  end.

(** message.py lines 47-50, assistant.py lines 97-100: the thread as
    [call_llm] wants it. *)
Fixpoint messages_in_thread (replies_messages : list (gmap string string))
  : Act (list (gmap string string)) :=
  match replies_messages with
  | [] => act_ret []
  | message :: rest =>
      let role :=
        match message !! "bot_id" with None => "user" | Some _ => "assistant" end in
      text <- item message "text" ;;
      later <- messages_in_thread rest ;;
      act_ret ({[ "role" := role; "content" := text ]} :: later)
  end.

(** message.py lines 68-81, app_mentioned.py lines 56-69: what is done with
    one yielded event. *)
Definition forward_event (w : World) (channel_id thread_ts : string) (e : LLMEvent)
  : Act unit :=
  match e with
  | Status text =>
      call w (AssistantThreadsSetStatus channel_id thread_ts "is working..." [text])
  | Content text =>
      if PyStr.truthy text then call w (StreamerAppend text) else act_ret tt
  end.

(** message.py lines 64-81, app_mentioned.py lines 50-69: [stream_response]
    runs [call_llm] and forwards what it yields. The calls on the runner
    come before the first yield. *)
Definition stream_response (w : World) (turn : Turn) (channel_id thread_ts : string)
  : Act unit :=
  fun done =>
    match outcome turn with
    | inl e => (inl e, done ++ map Engine (engine_calls turn))
    | inr out =>
        act_for_each (events_of out) (forward_event w channel_id thread_ts)
          (done ++ map Engine (engine_calls turn))
    end.

Definition warning (e : PyExc) : string :=
  ":warning: Something went wrong! (" +:+ str_exc e +:+ ")".

(** message.py lines 13-91. *)
Definition message (w : World) (runner : Runner)
    (context : BoltContext.t) (payload : gmap string string) : Act unit :=
  try_except
    (channel_id <- item payload "channel" ;;
     let team_id := BoltContext.team_id context in
     thread_ts <- item payload "thread_ts" ;;
     let user_id := BoltContext.user_id context in
     call w (SetStatus "is thinking..." None) ;;
     let replies :=
       conversations_replies w (BoltContext.channel_id context)
         (BoltContext.thread_ts context) (BoltContext.thread_ts context) 10 in
     call w (ConversationsReplies (BoltContext.channel_id context)
               (BoltContext.thread_ts context) (BoltContext.thread_ts context) 10) ;;
     messages <- messages_in_thread replies ;;
     call w (ChatStream channel_id team_id user_id thread_ts) ;;
     stream_response w (call_llm runner messages user_id (Some thread_ts))
       channel_id thread_ts ;;
     call w (StreamerStop create_feedback_block))
    (fun e => call w (Say (warning e))).

(** assistant.py lines 55-124. [call_llm(messages_in_thread)] only makes the
    asynchronous generator; the plain [for] over it (line 113) raises the
    [TypeError] of an object that is not iterable before any of its code
    runs. *)
Definition respond_in_assistant_thread (w : World)
    (context : BoltContext.t) (payload : gmap string string) : Act unit :=
  try_except
    (channel_id <- item payload "channel" ;;
     let team_id := BoltContext.team_id context in
     thread_ts <- item payload "thread_ts" ;;
     let user_id := BoltContext.user_id context in
     call w (SetStatus "thinking..."
               (Some [ "Teaching the hamsters to type faster…";
                       "Untangling the internet cables…";
                       "Consulting the office goldfish…";
                       "Polishing up the response just for you…";
                       "Convincing the AI to stop overthinking…" ])) ;;
     let replies :=
       conversations_replies w (BoltContext.channel_id context)
         (BoltContext.thread_ts context) (BoltContext.thread_ts context) 10 in
     call w (ConversationsReplies (BoltContext.channel_id context)
               (BoltContext.thread_ts context) (BoltContext.thread_ts context) 10) ;;
     messages <- messages_in_thread replies ;;
     call w (ChatStream channel_id team_id user_id thread_ts) ;;
     (act_raise (OtherException "TypeError"
                   "'async_generator' object is not iterable") : Act unit) ;;
     call w (StreamerStop create_feedback_block))
    (fun e => call w (Say (warning e))).

(** The effects of a handler run from nothing, and whether it raised. *)
Definition effects (m : Act unit) : list Effect := snd (m []).

Definition escaped (m : Act unit) : option PyExc :=
  match fst (m []) with
  | inl e => Some e
  | inr _ => None
  end.

Local Close Scope act_scope.

End listeners.

(** ** Vocabulary for the listeners *)

Section listener_vocabulary.
Context {Blocks : Type}.

(** What line 50 of message.py appends for a Slack message with a text. *)
Definition thread_message (message : gmap string string) (text : string)
  : gmap string string :=
  {[ "role" := match message !! "bot_id" with
               | None => "user"
               | Some _ => "assistant"
               end;
     "content" := text ]}.

(** The thread, when every message has a text. *)
Definition normalized (replies_messages : list (gmap string string))
  : list (gmap string string) :=
  omap (fun m => thread_message m <$> (m !! "text")) replies_messages.

(** The Slack call a yielded event with a non-empty text becomes. *)
Definition slack_call_of (channel_id thread_ts : string) (e : LLMEvent)
  : @SlackCall Blocks :=
  match e with
  | Status text => AssistantThreadsSetStatus channel_id thread_ts "is working..." [text]
  | Content text => StreamerAppend text
  end.

(** The texts appended to the stream, in order. *)
Definition appended (effs : list (@Effect Blocks)) : list string :=
  omap (fun eff => match eff with
                   | Slack (StreamerAppend text) => Some text
                   | _ => None
                   end) effs.

(** The text of the last message of the thread, empty for an empty thread. *)
Definition last_text (replies_messages : list (gmap string string)) : string :=
  match last replies_messages with
  | Some m => default "" (m !! "text")
  | None => ""
  end.

(** A handler effect that reaches the runner or writes to the stream. *)
Definition reaches_engine_or_stream (eff : @Effect Blocks) : Prop :=
  match eff with
  | Engine _ => True
  | Slack (StreamerAppend _) => True
  | Slack (StreamerStop _) => True
  | Slack _ => False
  end.

End listener_vocabulary.

(** ** A sample thread *)

Definition sample_replies : list (gmap string string) :=
  [ {[ "user" := "U1"; "text" := "what is 2+2?" ]};
    {[ "bot_id" := "B1"; "text" := "4" ]};
    {[ "user" := "U1"; "text" := "and 3+3?" ]} ].

(** A Slack in which no call raises and the thread is the sample. *)
Definition sample_world : @World unit :=
  {| raises := fun _ => None;
     conversations_replies := fun _ _ _ _ => sample_replies |}.

(** The same Slack with a message that has no text in the thread. *)
Definition textless_world : @World unit :=
  {| raises := fun _ => None;
     conversations_replies := fun _ _ _ _ =>
       sample_replies ++ [ {[ "user" := "U1"; "subtype" := "file_share" ]} ] |}.

Definition sample_context : BoltContext.t :=
  {| BoltContext.team_id := "T1"; BoltContext.user_id := "U1";
     BoltContext.channel_id := "D1"; BoltContext.thread_ts := "1700000000.000100" |}.

Definition sample_payload : gmap string string :=
  {[ "channel" := "D1"; "thread_ts" := "1700000000.000100";
     "text" := "and 3+3?"; "user" := "U1" ]}.

Section listener_vocabulary_2.
Context {Blocks : Type}.

(** A handler step that, whatever was done before, adds no effect on the
    runner or on the stream. *)
Definition keeps_off {A} (m : @Act Blocks A) : Prop :=
  forall done,
    Forall (fun eff => ~ reaches_engine_or_stream eff) done ->
    Forall (fun eff => ~ reaches_engine_or_stream eff) (snd (m done)).

End listener_vocabulary_2.

(** ** The mention handler's turn (app_mentioned.py lines 22-55)

    Of [app_mentioned_callback], the choice of the session and the thread it
    hands to [call_llm]. The event's values are read with [get]. *)

(** Line 26: [event.get("thread_ts") or event.get("ts")]. *)
Definition mention_thread_ts (event : gmap string string) : option string :=
  if truthy (event !! "thread_ts") then event !! "thread_ts" else event !! "ts".

(** Line 52: the one-message thread of a mention with the given text. *)
Definition mention_messages (text : string) : list (gmap string string) :=
  [ {[ "role" := "user"; "content" := text ]} ].

(** Lines 51-55: the call of [call_llm] for an event that carries a user and
    a text. *)
Definition mention_turn (runner : Runner) (event : gmap string string)
    (user_id text : string) : Turn :=
  call_llm runner (mention_messages text) user_id (mention_thread_ts event).

(** A Slack in which every call is refused. *)
Definition refusing_world : @World unit :=
  {| raises := fun _ => Some (OtherException "SlackApiError" "ratelimited");
     conversations_replies := fun _ _ _ _ => sample_replies |}.

(** * Properties *)

(** ** Sample runs *)

Example scenario_A_run :
  received (call_llm (scripted scenario_A) thread_history "U1" None)
  = Some [ Status "MathAgent is working..."; Status "Using Calculate...";
           Content "Result: 4" ].
Proof. vm_compute. reflexivity. Qed.

Example readable_name_snake : readable_name "get_current_time" = "Get Current Time".
Proof. reflexivity. Qed.

Example readable_name_digit : readable_name "get_2fa_code" = "Get 2Fa Code".
Proof. reflexivity. Qed.

(** ** Running the statements *)

Lemma bind_run {A B} (m : Gen A) (k : A -> Gen B) st a st1 out1 :
  m st = (a, st1, out1) ->
  bind m k st = (let '(b, st2, out2) := k a st1 in (b, st2, out1 ++ out2)).
Proof. intros H. unfold bind. rewrite H. reflexivity. Qed.

Lemma for_each_yield {A} (r : Rule) (f : A -> LLMEvent) (xs : list A) st :
  for_each xs (fun x => yield r (f x)) st
  = (tt, st, map (fun x => {| site := r; event := f x |}) xs).
Proof.
  induction xs as [|x xs IH]; [reflexivity|].
  cbn [for_each]. unfold bind at 1. cbn [yield]. rewrite IH. reflexivity.
Qed.

Lemma state_eta st :
  {| current_agent := current_agent st;
     has_started_streaming_content := has_started_streaming_content st |} = st.
Proof. destruct st; reflexivity. Qed.

Lemma content_loop_run (ps : list types.Part) st :
  for_each ps yield_part st
  = (tt,
     {| current_agent := current_agent st;
        has_started_streaming_content :=
          has_started_streaming_content st
          || bool_decide (nonempty_texts ps ≠ []) |},
     map (fun t => {| site := ContentExtraction; event := Content t |})
         (nonempty_texts ps)).
Proof.
  revert st. induction ps as [|p ps IH]; intros st.
  - cbn. rewrite orb_false_r, state_eta. reflexivity.
  - cbn [for_each]. unfold bind at 1.
    destruct p as [[[|c s]|]];
      cbv [yield_part when truthy types.text PyStr.truthy bind
           set_has_started yield ret];
      rewrite IH; unfold nonempty_texts; cbn; try reflexivity.
    rewrite orb_true_r. reflexivity.
Qed.

(** Closed forms of the four statements. *)

Lemma detect_agent_change_run ev st :
  detect_agent_change ev st
  = (tt,
     (if switches ev st
      then {| current_agent := author ev;
              has_started_streaming_content := has_started_streaming_content st |}
      else st),
     (if switches ev st && negb (has_started_streaming_content st)
      then [ {| site := AgentSwitch;
                event := Status (PyStr.fmt (author ev) +:+ " is working...") |} ]
      else [])).
Proof.
  unfold detect_agent_change, switches, bind, get_current_agent.
  destruct (truthy (author ev) && bool_decide (author ev ≠ Some "user")
            && bool_decide (author ev ≠ current_agent st)); cbn;
    [destruct (has_started_streaming_content st)|]; reflexivity.
Qed.

Lemma detect_tool_calls_run ev st :
  detect_tool_calls ev st
  = (tt, st,
     if has_started_streaming_content st then []
     else map (fun fc => {| site := ToolCall;
                            event := Status ("Using " +:+ readable_name (tool_name fc)
                                             +:+ "...") |})
              (function_calls ev)).
Proof.
  unfold detect_tool_calls, bind, get_has_started.
  destruct (has_started_streaming_content st); cbn [negb].
  - rewrite andb_false_r. reflexivity.
  - rewrite andb_true_r. case_bool_decide as Hfc; cbn [when].
    + rewrite for_each_yield. reflexivity.
    + rewrite Hfc. reflexivity.
Qed.

Lemma detect_agent_transfer_run ev st :
  detect_agent_transfer ev st
  = (tt, st,
     match transfer_target ev with
     | Some target => [ {| site := HandOff;
                           event := Status ("Consulting " +:+ target +:+ "...") |} ]
     | None => []
     end).
Proof.
  unfold detect_agent_transfer, transfer_target.
  destruct (actions ev) as [[[t|]]|]; cbn; try reflexivity.
  destruct t; reflexivity.
Qed.

Lemma stream_content_run ev st :
  stream_content ev st
  = (tt,
     {| current_agent := current_agent st;
        has_started_streaming_content :=
          has_started_streaming_content st
          || bool_decide (content_texts ev ≠ []) |},
     map (fun t => {| site := ContentExtraction; event := Content t |})
         (content_texts ev)).
Proof.
  unfold stream_content, content_texts.
  destruct (content ev) as [c|]; cbn.
  2: { rewrite orb_false_r, state_eta. reflexivity. }
  case_bool_decide as Hp; case_bool_decide as Hu; cbn [andb when ret].
  - apply content_loop_run.
  - cbn. rewrite orb_false_r, state_eta. reflexivity.
  - rewrite Hp. cbn.
    rewrite orb_false_r, state_eta. reflexivity.
  - cbn. rewrite orb_false_r, state_eta. reflexivity.
Qed.

(** What one raw event makes the body yield, statement by statement. *)

Lemma on_event_run ev st :
  on_event ev st
  = (tt, next_state ev st,
     agent_status ev st ++ tool_statuses ev st ++ handoff_status ev
       ++ content_chunks ev).
Proof.
  unfold on_event.
  rewrite (bind_run _ _ _ _ _ _ (detect_agent_change_run ev st)).
  rewrite (bind_run _ _ _ _ _ _ (detect_tool_calls_run ev _)).
  rewrite (bind_run _ _ _ _ _ _ (detect_agent_transfer_run ev _)).
  rewrite stream_content_run.
  unfold next_state, agent_status, tool_statuses, handoff_status, content_chunks.
  destruct (switches ev st); reflexivity.
Qed.

Lemma on_event_output ev st :
  output (on_event ev) st
  = agent_status ev st ++ tool_statuses ev st ++ handoff_status ev
      ++ content_chunks ev.
Proof. unfold output. rewrite on_event_run. reflexivity. Qed.

Lemma on_event_exec ev st : exec (on_event ev) st = next_state ev st.
Proof. unfold exec. rewrite on_event_run. reflexivity. Qed.

(** The event loop. *)

Lemma consume_cons i ev rest st :
  consume i (ev :: rest) st
  = (fst (consume (S i) rest (next_state ev st)),
     map (pair i) (output (on_event ev) st)
       ++ snd (consume (S i) rest (next_state ev st))).
Proof.
  cbn [consume]. unfold output. rewrite on_event_run.
  destruct (consume (S i) rest (next_state ev st)); reflexivity.
Qed.

Lemma consume_app i events1 events2 st :
  consume i (events1 ++ events2) st
  = (fst (consume (i + length events1) events2 (fst (consume i events1 st))),
     snd (consume i events1 st)
       ++ snd (consume (i + length events1) events2 (fst (consume i events1 st)))).
Proof.
  revert i st. induction events1 as [|ev rest IH]; intros i st.
  - cbn. rewrite Nat.add_0_r. destruct (consume i events2 st); reflexivity.
  - rewrite <- app_comm_cons, !consume_cons, IH. cbn [fst snd length].
    rewrite Nat.add_succ_r, app_assoc. reflexivity.
Qed.

Lemma consume_index_ge i events st :
  Forall (fun x => (i <= fst x)%nat) (snd (consume i events st)).
Proof.
  revert i st. induction events as [|ev rest IH]; intros i st.
  - constructor.
  - rewrite consume_cons. cbn [snd]. apply Forall_app. split.
    + apply Forall_forall. intros x Hx. apply list_elem_of_In, in_map_iff in Hx.
      destruct Hx as (e & <- & _). cbn. lia.
    + eapply Forall_impl; [apply IH|]. cbn. intros; lia.
Qed.

Lemma started_stays ev st :
  has_started_streaming_content st = true ->
  has_started_streaming_content (next_state ev st) = true.
Proof. intros H. unfold next_state. cbn. rewrite H. reflexivity. Qed.

Lemma consume_started_stays i events st :
  has_started_streaming_content st = true ->
  has_started_streaming_content (fst (consume i events st)) = true.
Proof.
  revert i st. induction events as [|ev rest IH]; intros i st H; [exact H|].
  rewrite consume_cons. cbn [fst]. apply IH, started_stays, H.
Qed.

(** ** Statuses under the guard, and content *)

Lemma split_app_cons {A} (xs ys before after : list A) (c : A) :
  before ++ c :: after = xs ++ ys ->
  (exists mid, xs = before ++ c :: mid /\ after = mid ++ ys)
  \/ (exists pre, before = xs ++ pre /\ ys = pre ++ c :: after).
Proof.
  revert before. induction xs as [|x xs IH]; intros before H.
  - right. exists before. split; [reflexivity|]. symmetry. exact H.
  - destruct before as [|b before]; cbn in H; injection H as -> H.
    + left. exists xs. split; [reflexivity|]. exact H.
    + destruct (IH _ H) as [(mid & -> & ->)|(pre & -> & ->)].
      * left. exists mid. split; reflexivity.
      * right. exists pre. split; reflexivity.
Qed.

Section closing.
Context {A : Type} (proj : A -> Emitted).

Lemma content_closes_app (xs ys : list A) :
  content_closes proj xs -> content_closes proj ys ->
  (Exists (fun x => is_content (proj x)) xs ->
   Forall (fun x => ~ guarded_status (proj x)) ys) ->
  content_closes proj (xs ++ ys).
Proof.
  intros Hxs Hys Hx before c after Heq Hc.
  destruct (split_app_cons _ _ _ _ _ (eq_sym Heq))
    as [(mid & -> & ->)|(pre & -> & ->)].
  - apply Forall_app. split.
    + eapply Hxs; [reflexivity|exact Hc].
    + apply Hx, Exists_app. right. constructor. exact Hc.
  - eapply Hys; [reflexivity|exact Hc].
Qed.

Lemma content_closes_no_content (xs : list A) :
  Forall (fun x => ~ is_content (proj x)) xs -> content_closes proj xs.
Proof.
  intros H before c after -> Hc.
  apply Forall_app in H as [_ H]. inversion H; subst. contradiction.
Qed.

Lemma content_closes_unguarded (xs : list A) :
  Forall (fun x => ~ guarded_status (proj x)) xs -> content_closes proj xs.
Proof.
  intros H before c after -> _.
  apply Forall_app in H as [_ H]. inversion H; subst. assumption.
Qed.

End closing.

Lemma agent_status_no_content ev st :
  Forall (fun x => ~ is_content x) (agent_status ev st).
Proof.
  unfold agent_status.
  destruct (switches ev st && negb (has_started_streaming_content st));
    repeat constructor. intros [t Ht]. discriminate.
Qed.

Lemma tool_statuses_no_content ev st :
  Forall (fun x => ~ is_content x) (tool_statuses ev st).
Proof.
  unfold tool_statuses. destruct (has_started_streaming_content st); [constructor|].
  apply Forall_forall. intros x Hx. apply list_elem_of_In, in_map_iff in Hx.
  destruct Hx as (fc & <- & _). intros [t Ht]. discriminate.
Qed.

Lemma handoff_status_no_content ev :
  Forall (fun x => ~ is_content x) (handoff_status ev).
Proof.
  unfold handoff_status. destruct (transfer_target ev); repeat constructor.
  intros [t Ht]. discriminate.
Qed.

Lemma handoff_status_unguarded ev :
  Forall (fun x => ~ guarded_status x) (handoff_status ev).
Proof.
  unfold handoff_status. destruct (transfer_target ev); repeat constructor.
  intros [H|H]; discriminate.
Qed.

Lemma content_chunks_unguarded ev :
  Forall (fun x => ~ guarded_status x) (content_chunks ev).
Proof.
  unfold content_chunks. apply Forall_forall. intros x Hx.
  apply list_elem_of_In, in_map_iff in Hx. destruct Hx as (t & <- & _).
  intros [H|H]; discriminate.
Qed.

Lemma started_silences ev st :
  has_started_streaming_content st = true ->
  agent_status ev st = [] /\ tool_statuses ev st = [].
Proof.
  intros H. unfold agent_status, tool_statuses. rewrite H, andb_false_r. auto.
Qed.

Lemma Forall_pair_snd {B} (i : nat) (P : B -> Prop) (l : list B) :
  Forall P l -> Forall (fun x => P (snd x)) (map (pair i) l).
Proof.
  intros H. apply Forall_forall. intros x Hx.
  apply list_elem_of_In, in_map_iff in Hx. destruct Hx as (e & <- & He).
  rewrite Forall_forall in H. apply H, list_elem_of_In, He.
Qed.

Lemma Exists_pair_snd {B} (i : nat) (P : B -> Prop) (l : list B) :
  Exists (fun x => P (snd x)) (map (pair i) l) -> Exists P l.
Proof.
  intros H. apply Exists_exists in H as (x & Hx & HP).
  apply list_elem_of_In, in_map_iff in Hx. destruct Hx as (e & <- & He).
  apply Exists_exists. exists e. split; [apply list_elem_of_In, He|exact HP].
Qed.

Lemma none_yet_some {A} (P : A -> Prop) (l : list A) :
  Forall (fun x => ~ P x) l -> Exists P l -> False.
Proof. induction 1; inversion 1; subst; auto. Qed.

Lemma on_event_content_starts ev st :
  Exists is_content (output (on_event ev) st) ->
  has_started_streaming_content (next_state ev st) = true.
Proof.
  rewrite on_event_output. intros H.
  repeat (apply Exists_app in H as [H|H]).
  - exfalso. eapply none_yet_some; [apply agent_status_no_content|exact H].
  - exfalso. eapply none_yet_some; [apply tool_statuses_no_content|exact H].
  - exfalso. eapply none_yet_some; [apply handoff_status_no_content|exact H].
  - unfold next_state. cbn. unfold content_chunks in H.
    destruct (content_texts ev); [inversion H|].
    rewrite bool_decide_true by discriminate. apply orb_true_r.
Qed.

Lemma on_event_content_closes ev st :
  content_closes (fun x => x) (output (on_event ev) st).
Proof.
  rewrite on_event_output.
  rewrite !app_assoc. apply content_closes_app.
  - apply content_closes_no_content. rewrite !Forall_app.
    split; [split|]; auto using agent_status_no_content,
      tool_statuses_no_content, handoff_status_no_content.
  - apply content_closes_unguarded, content_chunks_unguarded.
  - intros _. apply content_chunks_unguarded.
Qed.

Lemma consume_started_unguarded i events st :
  has_started_streaming_content st = true ->
  Forall (fun x => ~ guarded_status (snd x)) (snd (consume i events st)).
Proof.
  revert i st. induction events as [|ev rest IH]; intros i st H; [constructor|].
  rewrite consume_cons. cbn [snd]. apply Forall_app. split.
  - apply (Forall_pair_snd i (fun x => ~ guarded_status x)).
    rewrite on_event_output.
    destruct (started_silences ev st H) as [-> ->]. cbn [app].
    apply Forall_app. split;
      [apply handoff_status_unguarded|apply content_chunks_unguarded].
  - apply IH, started_stays, H.
Qed.

Lemma content_closes_pair i (l : list Emitted) :
  content_closes (fun x => x) l -> content_closes (@snd nat Emitted) (map (pair i) l).
Proof.
  intros H before c after Heq Hc.
  assert (Hm : l = map snd before ++ snd c :: map snd after).
  { rewrite <- (map_id l) at 1.
    rewrite <- (map_ext (fun x => snd (i, x)) (fun x => x)) by reflexivity.
    rewrite <- map_map, Heq, map_app. reflexivity. }
  specialize (H _ _ _ Hm Hc).
  apply Forall_forall. intros x Hx. rewrite Forall_forall in H.
  apply H, list_elem_of_In, in_map, list_elem_of_In, Hx.
Qed.

Lemma consume_content_closes i events st :
  content_closes (@snd nat Emitted) (snd (consume i events st)).
Proof.
  revert i st. induction events as [|ev rest IH]; intros i st.
  - intros before c after Heq. destruct before; discriminate.
  - rewrite consume_cons. cbn [snd]. apply content_closes_app.
    + apply content_closes_pair, on_event_content_closes.
    + apply IH.
    + intros H. apply consume_started_unguarded, on_event_content_starts.
      exact (Exists_pair_snd i is_content _ H).
Qed.

(** ** The outputs of one statement among those of one raw event *)

Lemma from_site_all r l : Forall (fun x => site x = r) l -> from_site r l = l.
Proof.
  unfold from_site. induction 1 as [|x l Hx _ IH]; [reflexivity|].
  rewrite filter_cons_True by exact Hx. rewrite IH. reflexivity.
Qed.

Lemma from_site_none r r' l :
  r <> r' -> Forall (fun x => site x = r') l -> from_site r l = [].
Proof.
  unfold from_site. intros Hne. induction 1 as [|x l Hx _ IH]; [reflexivity|].
  rewrite filter_cons_False by congruence. exact IH.
Qed.

Lemma from_site_app r l1 l2 : from_site r (l1 ++ l2) = from_site r l1 ++ from_site r l2.
Proof. apply filter_app. Qed.

Lemma agent_status_site ev st :
  Forall (fun x => site x = AgentSwitch) (agent_status ev st).
Proof.
  unfold agent_status.
  destruct (switches ev st && negb (has_started_streaming_content st));
    repeat constructor.
Qed.

Lemma tool_statuses_site ev st :
  Forall (fun x => site x = ToolCall) (tool_statuses ev st).
Proof.
  unfold tool_statuses. destruct (has_started_streaming_content st); [constructor|].
  apply Forall_forall. intros x Hx. apply list_elem_of_In, in_map_iff in Hx.
  destruct Hx as (fc & <- & _). reflexivity.
Qed.

Lemma handoff_status_site ev :
  Forall (fun x => site x = HandOff) (handoff_status ev).
Proof. unfold handoff_status. destruct (transfer_target ev); repeat constructor. Qed.

Lemma content_chunks_site ev :
  Forall (fun x => site x = ContentExtraction) (content_chunks ev).
Proof.
  unfold content_chunks. apply Forall_forall. intros x Hx.
  apply list_elem_of_In, in_map_iff in Hx. destruct Hx as (t & <- & _). reflexivity.
Qed.

Ltac pick_site :=
  rewrite on_event_output, !from_site_app;
  rewrite ?(from_site_all _ _ (agent_status_site _ _)),
          ?(from_site_all _ _ (tool_statuses_site _ _)),
          ?(from_site_all _ _ (handoff_status_site _)),
          ?(from_site_all _ _ (content_chunks_site _));
  rewrite ?(from_site_none _ AgentSwitch (agent_status _ _))
    by first [discriminate | apply agent_status_site];
  rewrite ?(from_site_none _ ToolCall (tool_statuses _ _))
    by first [discriminate | apply tool_statuses_site];
  rewrite ?(from_site_none _ HandOff (handoff_status _))
    by first [discriminate | apply handoff_status_site];
  rewrite ?(from_site_none _ ContentExtraction (content_chunks _))
    by first [discriminate | apply content_chunks_site];
  cbn [app]; rewrite ?app_nil_r.

Lemma on_event_agent_status ev st :
  from_site AgentSwitch (output (on_event ev) st) = agent_status ev st.
Proof. pick_site. reflexivity. Qed.

Lemma on_event_tool_statuses ev st :
  from_site ToolCall (output (on_event ev) st) = tool_statuses ev st.
Proof. pick_site. reflexivity. Qed.

Lemma on_event_handoff_status ev st :
  from_site HandOff (output (on_event ev) st) = handoff_status ev.
Proof. pick_site. reflexivity. Qed.

Lemma on_event_content_chunks ev st :
  from_site ContentExtraction (output (on_event ev) st) = content_chunks ev.
Proof. pick_site. reflexivity. Qed.

Lemma content_chunks_content ev :
  content_texts ev <> [] -> Exists is_content (content_chunks ev).
Proof.
  unfold content_chunks. destruct (content_texts ev) as [|t ts]; [congruence|].
  intros _. constructor. exists t. reflexivity.
Qed.

Lemma consume_started_iff i events st :
  has_started_streaming_content (fst (consume i events st)) = true
  <-> has_started_streaming_content st = true
      \/ Exists (fun x => is_content (snd x)) (snd (consume i events st)).
Proof.
  revert i st. induction events as [|ev rest IH]; intros i st.
  - cbn. split; [auto|]. intros [H|H]; [exact H|inversion H].
  - rewrite consume_cons. cbn [fst snd]. rewrite IH, Exists_app. split.
    + intros [H|H]; [|auto].
      unfold next_state in H. cbn in H. apply orb_true_iff in H as [H|H]; [auto|].
      right. left. apply bool_decide_eq_true in H.
      apply Exists_exists. apply content_chunks_content in H.
      apply Exists_exists in H as (x & Hx & Hc).
      exists (i, x). split; [|exact Hc].
      apply list_elem_of_In, in_map, list_elem_of_In.
      rewrite on_event_output, !elem_of_app. auto.
    + intros [H|[H|H]]; [left|left|right; exact H].
      * apply started_stays, H.
      * apply on_event_content_starts. exact (Exists_pair_snd i is_content _ H).
Qed.

Lemma switches_true ev st a :
  author ev = Some a -> a <> "" -> a <> "user" -> current_agent st <> Some a ->
  switches ev st = true.
Proof.
  intros Ha Hne Hu Hc. unfold switches. rewrite Ha.
  rewrite !bool_decide_true by congruence.
  destruct a; [congruence|reflexivity].
Qed.

(** ** The readable tool name, by words *)

Lemma split_cons sep s : exists w ws, PyStr.split sep s = w :: ws.
Proof.
  induction s as [|c s (w & ws & IH)]; cbn; [eauto|].
  destruct (Ascii.eqb c sep); [eauto|]. rewrite IH. eauto.
Qed.

Lemma join_cons_char sep c w ws :
  PyStr.join sep (String c w :: ws) = String c (PyStr.join sep (w :: ws)).
Proof. destruct ws; reflexivity. Qed.

Lemma join_cons_empty c ws :
  ws <> [] -> PyStr.join (String c EmptyString) (EmptyString :: ws)
              = String c (PyStr.join (String c EmptyString) ws).
Proof. destruct ws; [congruence|reflexivity]. Qed.

Lemma title_from_by_words (b : bool) (s : string) :
  all_chars name_char s = true ->
  PyStr.title_from b (PyStr.replace "_" " " s)
  = PyStr.join " "
      (match PyStr.split "_" s with
       | w :: ws => (if b then PyStr.lower_all w else PyStr.capitalize w)
                    :: map PyStr.capitalize ws
       | [] => []
       end).
Proof.
  revert b. induction s as [|c s IH]; intros b Hs.
  - destruct b; reflexivity.
  - cbn [all_chars] in Hs. apply andb_true_iff in Hs as [Hc Hs].
    cbn [PyStr.replace PyStr.split PyStr.title_from].
    destruct (Ascii.eqb c "_") eqn:Hsep.
    + change (PyStr.is_cased " ") with false. rewrite (IH false Hs).
      destruct (split_cons "_" s) as (w & ws & ->).
      replace (if b then PyStr.lower " " else PyStr.upper " ") with " "%char
        by (destruct b; reflexivity).
      replace (if b then PyStr.lower_all EmptyString
               else PyStr.capitalize EmptyString) with EmptyString
        by (destruct b; reflexivity).
      cbn [map]. rewrite join_cons_empty by discriminate. reflexivity.
    + unfold name_char in Hc. rewrite Hsep, orb_false_r in Hc. rewrite Hc.
      rewrite (IH true Hs).
      destruct (split_cons "_" s) as (w & ws & ->).
      destruct b; cbn [PyStr.lower_all PyStr.capitalize];
        rewrite join_cons_char; reflexivity.
Qed.

Lemma readable_name_words (name : string) :
  all_chars name_char name = true ->
  readable_name name = readable_name_by_words name.
Proof.
  intros H. unfold readable_name, readable_name_by_words, PyStr.title.
  rewrite (title_from_by_words false name H).
  destruct (split_cons "_" name) as (w & ws & ->). reflexivity.
Qed.

Lemma content_texts_not_user ev c :
  content ev = Some c -> author ev <> Some "user" ->
  content_texts ev = nonempty_texts (types.parts c).
Proof.
  intros Hc Hu. unfold content_texts. rewrite Hc, bool_decide_true by exact Hu.
  reflexivity.
Qed.

Lemma content_texts_user ev : author ev = Some "user" -> content_texts ev = [].
Proof.
  intros Hu. unfold content_texts. destruct (content ev); [|reflexivity].
  rewrite bool_decide_false; [reflexivity|]. intros H. apply H, Hu.
Qed.

Lemma switches_user ev st : author ev = Some "user" -> switches ev st = false.
Proof.
  intros Hu. unfold switches. rewrite Hu. cbn.
  rewrite (bool_decide_false (Some "user" <> Some "user")) by (intros H; apply H; reflexivity).
  reflexivity.
Qed.

Lemma transfer_target_declared ev acts target :
  actions ev = Some acts -> transfer_to_agent acts = Some target -> target <> "" ->
  transfer_target ev = Some target.
Proof.
  intros Ha Ht Hne. unfold transfer_target. rewrite Ha, Ht.
  destruct target; [congruence|reflexivity].
Qed.

(** ** Order of the outputs *)

Lemma rank_sorted_app (i : nat) (r : nat) (l1 l2 : list Emitted) :
  StronglySorted precedes (map (pair i) l1) ->
  StronglySorted precedes (map (pair i) l2) ->
  Forall (fun x => (rank (site x) <= r)%nat) l1 ->
  Forall (fun x => (r <= rank (site x))%nat) l2 ->
  StronglySorted precedes (map (pair i) (l1 ++ l2)).
Proof.
  intros H1 H2 Hle Hge. rewrite map_app.
  apply StronglySorted_app_2; [|exact H1|exact H2].
  intros x1 x2 Hx1 Hx2.
  apply list_elem_of_In, in_map_iff in Hx1 as (e1 & <- & He1).
  apply list_elem_of_In, in_map_iff in Hx2 as (e2 & <- & He2).
  rewrite Forall_forall in Hle, Hge.
  apply list_elem_of_In, Hle in He1. apply list_elem_of_In, Hge in He2.
  right. cbn. split; [reflexivity|lia].
Qed.

Lemma same_site_sorted (i : nat) (r : Rule) (l : list Emitted) :
  Forall (fun x => site x = r) l -> StronglySorted precedes (map (pair i) l).
Proof.
  induction 1 as [|x l Hx Hl IH]; cbn; constructor; [exact IH|].
  apply Forall_forall. intros y Hy.
  apply list_elem_of_In, in_map_iff in Hy as (e & <- & He).
  rewrite Forall_forall in Hl. apply list_elem_of_In, Hl in He.
  right. cbn. rewrite Hx, He. auto.
Qed.

Lemma Forall_site_rank (r : Rule) (P : nat -> Prop) (l : list Emitted) :
  P (rank r) -> Forall (fun x => site x = r) l -> Forall (fun x => P (rank (site x))) l.
Proof.
  intros Hr H. eapply Forall_impl; [exact H|]. cbn. intros x ->. exact Hr.
Qed.

Lemma on_event_sorted (i : nat) ev st :
  StronglySorted precedes (map (pair i) (output (on_event ev) st)).
Proof.
  rewrite on_event_output.
  apply (rank_sorted_app i 0).
  - apply (same_site_sorted i AgentSwitch), agent_status_site.
  - apply (rank_sorted_app i 1).
    + apply (same_site_sorted i ToolCall), tool_statuses_site.
    + apply (rank_sorted_app i 2).
      * apply (same_site_sorted i HandOff), handoff_status_site.
      * apply (same_site_sorted i ContentExtraction), content_chunks_site.
      * apply (Forall_site_rank HandOff (fun n => n <= 2)%nat);
          [cbn; lia|apply handoff_status_site].
      * apply (Forall_site_rank ContentExtraction (fun n => 2 <= n)%nat);
          [cbn; lia|apply content_chunks_site].
    + apply (Forall_site_rank ToolCall (fun n => n <= 1)%nat);
        [cbn; lia|apply tool_statuses_site].
    + apply Forall_app. split.
      * apply (Forall_site_rank HandOff (fun n => 1 <= n)%nat);
          [cbn; lia|apply handoff_status_site].
      * apply (Forall_site_rank ContentExtraction (fun n => 1 <= n)%nat);
          [cbn; lia|apply content_chunks_site].
  - apply (Forall_site_rank AgentSwitch (fun n => n <= 0)%nat);
      [cbn; lia|apply agent_status_site].
  - apply Forall_forall. intros x _. lia.
Qed.

Lemma consume_sorted i events st :
  StronglySorted precedes (snd (consume i events st)).
Proof.
  revert i st. induction events as [|ev rest IH]; intros i st; [constructor|].
  rewrite consume_cons. cbn [snd].
  apply StronglySorted_app_2; [|apply on_event_sorted|apply IH].
  intros x1 x2 Hx1 Hx2.
  apply list_elem_of_In, in_map_iff in Hx1 as (e1 & <- & _).
  pose proof (consume_index_ge (S i) rest (next_state ev st)) as Hge.
  rewrite Forall_forall in Hge. apply Hge in Hx2.
  left. cbn. lia.
Qed.

Lemma consume_index_lt i events st :
  Forall (fun x => (fst x < i + length events)%nat) (snd (consume i events st)).
Proof.
  revert i st. induction events as [|ev rest IH]; intros i st; [constructor|].
  rewrite consume_cons. cbn [snd length]. apply Forall_app. split.
  - apply Forall_forall. intros x Hx.
    apply list_elem_of_In, in_map_iff in Hx as (e & <- & _). cbn. lia.
  - eapply Forall_impl; [apply IH|]. cbn. intros; lia.
Qed.

Lemma filter_all {A} (P : A -> Prop) `{!forall x, Decision (P x)} (l : list A) :
  Forall P l -> filter P l = l.
Proof.
  induction 1 as [|x l Hx _ IH]; [reflexivity|].
  rewrite filter_cons_True by exact Hx. rewrite IH. reflexivity.
Qed.

Lemma filter_none {A} (P : A -> Prop) `{!forall x, Decision (P x)} (l : list A) :
  Forall (fun x => ~ P x) l -> filter P l = [].
Proof.
  induction 1 as [|x l Hx _ IH]; [reflexivity|].
  rewrite filter_cons_False by exact Hx. exact IH.
Qed.

Lemma outputs_of_event (i : nat) (ev : Event) (events : list Event) :
  events !! i = Some ev ->
  filter (fun x => fst x = i) (translate events)
  = map (pair i) (output (on_event ev) (state_after (take i events))).
Proof.
  intros Hi. unfold translate, state_after.
  rewrite <- (take_drop_middle events i ev Hi) at 1.
  rewrite consume_app. cbn [snd fst]. rewrite consume_cons. cbn [snd].
  assert (Hlen : length (take i events) = i).
  { apply length_take_le. apply lookup_lt_Some in Hi. lia. }
  rewrite Hlen, Nat.add_0_l, !filter_app.
  rewrite (filter_none (fun x : nat * Emitted => fst x = i)
             (snd (consume 0 (take i events) initial_state))).
  2: { eapply Forall_impl; [apply consume_index_lt|]. cbn. rewrite Hlen. intros; lia. }
  rewrite (filter_none (fun x : nat * Emitted => fst x = i)
             (snd (consume (S i) _ _))).
  2: { eapply Forall_impl; [apply consume_index_ge|]. cbn. intros; lia. }
  rewrite app_nil_r. cbn [app]. apply filter_all.
  apply Forall_forall. intros x Hx.
  apply list_elem_of_In, in_map_iff in Hx as (e & <- & _). reflexivity.
Qed.

(** ** The call as a whole *)

Lemma call_llm_runs runner msgs uid sid text :
  ensure_session runner uid (resolve_session_id uid sid) = None ->
  last_message msgs !! "content" = Some text ->
  call_llm runner msgs uid sid
  = {| engine_calls :=
         [ CreateSession _app_name uid (resolve_session_id uid sid);
           RunAsync uid (resolve_session_id uid sid) (user_message text) ];
       outcome :=
         inr (translate (run_async runner uid (resolve_session_id uid sid)
                           (user_message text))) |}.
Proof. intros He Hm. unfold call_llm. rewrite He, Hm. reflexivity. Qed.

Lemma ensure_session_absorbs runner uid sid e :
  create_session runner _app_name uid sid = Some e ->
  isinstance_Exception e = true ->
  ensure_session runner uid sid = None.
Proof. intros Hc He. unfold ensure_session. rewrite Hc, He. reflexivity. Qed.

(** What [except Exception] lets through stops the call before the runner
    is asked for a turn. *)
Lemma base_exception_escapes runner msgs uid sid e :
  create_session runner _app_name uid (resolve_session_id uid sid) = Some e ->
  isinstance_Exception e = false ->
  surfaced (call_llm runner msgs uid sid) = Some e
  /\ forwarded (call_llm runner msgs uid sid) = None.
Proof.
  intros Hc He. unfold call_llm, ensure_session. rewrite Hc, He.
  split; reflexivity.
Qed.

(** ** The claims *)

(** C1: within one call, once [has_started_streaming_content] is true after
    some prefix of the raw events it is true after every longer prefix; no
    status yielded by the agent-switch statement or by the tool-call statement
    comes after a content; and the flag is true exactly when a content has
    been yielded. *)
Theorem content_started_never_reverts (events : list Event) :
  (forall k j, (k <= j)%nat ->
     has_started_streaming_content (state_after (take k events)) = true ->
     has_started_streaming_content (state_after (take j events)) = true)
  /\ (forall before c after,
        translate events = before ++ c :: after ->
        is_content (snd c) ->
        Forall (fun x => ~ guarded_status (snd x)) after)
  /\ (has_started_streaming_content (state_after events) = true
      <-> Exists (fun x => is_content (snd x)) (translate events)).
Proof.
  split; [|split].
  - intros k j Hkj Hk. unfold state_after in *.
    rewrite <- (take_drop k (take j events)), take_take, Nat.min_l by exact Hkj.
    rewrite consume_app. cbn [fst]. apply consume_started_stays, Hk.
  - intros before c after Heq Hc.
    exact (consume_content_closes 0 events initial_state before c after Heq Hc).
  - unfold state_after, translate. rewrite consume_started_iff. cbn.
    split; [intros [H|H]; [discriminate|exact H]|auto].
Qed.

Lemma content_started_never_reverts_witness :
  has_started_streaming_content (state_after (take 3 scenario_B)) = true
  /\ Forall (fun x => ~ guarded_status (snd x))
       [ (1%nat, {| site := HandOff; event := Status "Consulting B..." |});
         (2%nat, {| site := ContentExtraction; event := Content " more" |}) ].
Proof.
  destruct (content_started_never_reverts scenario_B) as (Hmono & Hclose & _).
  split.
  - apply (Hmono 1%nat 3%nat); [repeat constructor|reflexivity].
  - apply (Hclose
             [ (0%nat, {| site := AgentSwitch; event := Status "A is working..." |}) ]
             (0%nat, {| site := ContentExtraction; event := Content "partial" |})).
    + reflexivity.
    + exists "partial". reflexivity.
Defined.

(** C2, as the code has it: a raw event that declares a transfer to a
    non-empty target T makes the hand-off statement yield the one status
    "Consulting T...", whether [has_started_streaming_content] is true or
    false; and the sequence [author=A, content "partial"], [transfer to B],
    [author=B, content " more"] yields "A is working..." (status), "partial"
    (content), "Consulting B..." (status), " more" (content). *)
Theorem handoff_status_ignores_guard
    (ev : Event) (st : TranslatorState) (acts : EventActions) (target : string) :
  actions ev = Some acts -> transfer_to_agent acts = Some target -> target <> "" ->
  from_site HandOff (output (on_event ev) st)
  = [ {| site := HandOff; event := Status ("Consulting " +:+ target +:+ "...") |} ]
  /\ received (call_llm (scripted scenario_B) thread_history "U1" None)
     = Some [ Status "A is working..."; Content "partial";
              Status "Consulting B..."; Content " more" ].
Proof.
  intros Ha Ht Hne. split.
  - rewrite on_event_handoff_status. unfold handoff_status.
    rewrite (transfer_target_declared ev acts target Ha Ht Hne). reflexivity.
  - vm_compute. reflexivity.
Qed.

Lemma handoff_status_ignores_guard_witness :
  from_site HandOff (output (on_event (transfer_event "B")) streaming_state)
  = [ {| site := HandOff; event := Status "Consulting B..." |} ].
Proof.
  exact (proj1 (handoff_status_ignores_guard (transfer_event "B") streaming_state
                  {| transfer_to_agent := Some "B" |} "B"
                  eq_refl eq_refl ltac:(discriminate))).
Defined.

(** C2, as stated, fails on its own sequence: the first raw event also
    switches the agent while nothing has been streamed yet, so a status
    precedes the first content. *)
Lemma scenario_B_starts_with_agent_status :
  received (call_llm (scripted scenario_B) thread_history "U1" None)
  <> Some [ Content "partial"; Status "Consulting B..."; Content " more" ].
Proof. vm_compute. discriminate. Qed.

(** C3: the outputs come out in the order of the raw events that produced
    them and, for one raw event, in the order of the statements (agent-switch
    status, tool-call statuses, hand-off status, content chunks); the outputs
    of the raw event at position [i] are those of the loop body run on it in
    the state the earlier raw events left, and the outputs of one run of the
    loop body are those of its four statements, one statement after the
    other. *)
Theorem outputs_in_evaluation_order (events : list Event) :
  StronglySorted precedes (translate events)
  /\ (forall i ev, events !! i = Some ev ->
        filter (fun x => fst x = i) (translate events)
        = map (pair i) (output (on_event ev) (state_after (take i events))))
  /\ (forall ev st,
        output (on_event ev) st
        = from_site AgentSwitch (output (on_event ev) st)
          ++ from_site ToolCall (output (on_event ev) st)
          ++ from_site HandOff (output (on_event ev) st)
          ++ from_site ContentExtraction (output (on_event ev) st)).
Proof.
  split; [apply consume_sorted|split].
  - intros i ev. apply outputs_of_event.
  - intros ev st.
    rewrite on_event_agent_status, on_event_tool_statuses,
      on_event_handoff_status, on_event_content_chunks.
    apply on_event_output.
Qed.

Lemma outputs_in_evaluation_order_witness :
  filter (fun x => fst x = 1%nat) (translate scenario_A)
  = [ (1%nat, {| site := ToolCall; event := Status "Using Calculate..." |}) ].
Proof.
  exact (proj1 (proj2 (outputs_in_evaluation_order scenario_A)) 1%nat
           (call_event "MathAgent" ["calculate"]) eq_refl).
Defined.

(** C4, as the code has it: a failure of session creation that is an
    [Exception], "already exists" or any other, is absorbed: the call goes on
    exactly as with a session service that did not raise, so nothing of the
    failure reaches the caller. *)
Theorem session_creation_failure_absorbed
    (runner : Runner) (msgs : list (gmap string string))
    (uid : string) (sid : option string) (e : PyExc) :
  create_session runner _app_name uid (resolve_session_id uid sid) = Some e ->
  isinstance_Exception e = true ->
  call_llm runner msgs uid sid = call_llm (quiet runner) msgs uid sid.
Proof.
  intros Hc He. unfold call_llm.
  rewrite (ensure_session_absorbs runner uid _ e Hc He). reflexivity.
Qed.

Lemma session_creation_failure_absorbed_witness :
  call_llm failing_runner thread_history "U1" None
  = call_llm (quiet failing_runner) thread_history "U1" None.
Proof.
  exact (session_creation_failure_absorbed failing_runner thread_history "U1" None
           (OtherException "RuntimeError" "session store unavailable")
           eq_refl eq_refl).
Defined.

(** C4, as stated, fails: the session service raises a RuntimeError, which
    is not "already exists"; the caller sees no exception and receives the
    whole turn. *)
Lemma other_creation_failure_not_surfaced :
  create_session failing_runner _app_name "U1" (resolve_session_id "U1" None)
  = Some (OtherException "RuntimeError" "session store unavailable")
  /\ surfaced (call_llm failing_runner thread_history "U1" None) = None
  /\ received (call_llm failing_runner thread_history "U1" None)
     = Some [ Status "MathAgent is working..."; Status "Using Calculate...";
              Content "Result: 4" ].
Proof. repeat split; vm_compute; reflexivity. Qed.

(** C5: a raw event whose author is present, is not "user" and differs from
    [current_agent] makes that author the current agent, whatever the flag;
    the agent-switch statement yields the one status "<author> is working..."
    when [has_started_streaming_content] is false at that point and nothing
    when it is true. *)
Theorem agent_switch_detection (ev : Event) (st : TranslatorState) (a : string) :
  author ev = Some a -> a <> "" -> a <> "user" -> current_agent st <> Some a ->
  current_agent (exec (on_event ev) st) = Some a
  /\ from_site AgentSwitch (output (on_event ev) st)
     = (if has_started_streaming_content st then []
        else [ {| site := AgentSwitch; event := Status (a +:+ " is working...") |} ]).
Proof.
  intros Ha Hne Hu Hc.
  rewrite on_event_exec, on_event_agent_status.
  unfold next_state, agent_status.
  rewrite (switches_true ev st a Ha Hne Hu Hc), Ha. cbn.
  destruct (has_started_streaming_content st); auto.
Qed.

Lemma agent_switch_detection_witness :
  current_agent (exec (on_event (text_event "B" " more")) streaming_state) = Some "B"
  /\ from_site AgentSwitch (output (on_event (text_event "B" " more")) streaming_state)
     = [].
Proof.
  apply (agent_switch_detection (text_event "B" " more") streaming_state "B");
    [reflexivity|discriminate|discriminate|discriminate].
Defined.

(** C6: the tool-call statement yields, when [has_started_streaming_content]
    is false, one status "Using <readable name>..." per function call of the
    raw event, in the order of the calls, and nothing when the flag is true;
    the readable name of a name made of letters and underscores is its
    underscore-separated words, each capitalized, joined by spaces, and that
    of "calculate" is "Calculate". *)
Theorem tool_call_detection (ev : Event) (st : TranslatorState) :
  from_site ToolCall (output (on_event ev) st)
  = (if has_started_streaming_content st then []
     else map (fun fc =>
                 {| site := ToolCall;
                    event := Status ("Using " +:+ readable_name (tool_name fc)
                                     +:+ "...") |})
              (function_calls ev))
  /\ (forall name, all_chars name_char name = true ->
        readable_name name = readable_name_by_words name)
  /\ readable_name "calculate" = "Calculate".
Proof.
  split; [|split].
  - rewrite on_event_tool_statuses. reflexivity.
  - exact readable_name_words.
  - reflexivity.
Qed.

Lemma tool_call_detection_witness :
  from_site ToolCall
    (output (on_event (call_event "MathAgent" ["calculate"; "format_text"]))
            initial_state)
  = [ {| site := ToolCall; event := Status "Using Calculate..." |};
      {| site := ToolCall; event := Status "Using Format Text..." |} ]
  /\ readable_name "get_current_time" = readable_name_by_words "get_current_time".
Proof.
  destruct (tool_call_detection
              (call_event "MathAgent" ["calculate"; "format_text"]) initial_state)
    as (Hout & Hwords & _).
  split; [exact Hout|apply Hwords; reflexivity].
Defined.

(** C7: for a raw event with content whose author is not "user", the content
    statement yields one content per part with a non-empty text, in part
    order, and the flag afterwards is true if it was true or one was
    yielded; in the loop over the parts the flag is true from the first
    yielded content on. A raw event of author "user" that carries no
    function call and no transfer yields nothing and leaves the locals as
    they were. *)
Theorem content_extraction (ev : Event) (st : TranslatorState) (c : types.Content) :
  content ev = Some c ->
  (author ev <> Some "user" ->
     from_site ContentExtraction (output (on_event ev) st)
     = map (fun t => {| site := ContentExtraction; event := Content t |})
           (nonempty_texts (types.parts c))
     /\ has_started_streaming_content (exec (on_event ev) st)
        = has_started_streaming_content st
          || bool_decide (nonempty_texts (types.parts c) ≠ [])
     /\ (forall done todo, types.parts c = done ++ todo ->
           has_started_streaming_content (exec (for_each done yield_part) st)
           = has_started_streaming_content st
             || bool_decide (nonempty_texts done ≠ [])))
  /\ (author ev = Some "user" -> function_calls ev = [] ->
      transfer_target ev = None ->
      output (on_event ev) st = [] /\ exec (on_event ev) st = st).
Proof.
  intros Hc. split.
  - intros Hu. split; [|split].
    + rewrite on_event_content_chunks. unfold content_chunks.
      rewrite (content_texts_not_user ev c Hc Hu). reflexivity.
    + rewrite on_event_exec. unfold next_state. cbn.
      rewrite (content_texts_not_user ev c Hc Hu). reflexivity.
    + intros done todo _. unfold exec. rewrite content_loop_run. reflexivity.
  - intros Hu Hfc Ht. rewrite on_event_output, on_event_exec.
    unfold agent_status, tool_statuses, handoff_status, content_chunks, next_state.
    rewrite (switches_user ev st Hu), (content_texts_user ev Hu), Hfc, Ht.
    cbn. rewrite orb_false_r. split; [destruct (has_started_streaming_content st)|];
      try reflexivity. apply state_eta.
Qed.

Lemma content_extraction_witness :
  (from_site ContentExtraction (output (on_event two_part_event) initial_state)
   = [ {| site := ContentExtraction; event := Content "Hello" |};
       {| site := ContentExtraction; event := Content " world" |} ]
   /\ has_started_streaming_content (exec (on_event two_part_event) initial_state)
      = true)
  /\ output (on_event (text_event "user" "hi")) initial_state = [].
Proof.
  split.
  - destruct (content_extraction two_part_event initial_state _ eq_refl)
      as [H _].
    destruct (H ltac:(discriminate)) as (Hout & Hflag & _).
    split; [exact Hout|exact Hflag].
  - destruct (content_extraction (text_event "user" "hi") initial_state _ eq_refl)
      as [_ H].
    exact (proj1 (H eq_refl eq_refl eq_refl)).
Defined.

(** C8: when session creation lets the call go on, the message handed to the
    runner is a "user" content whose single part is the text of the last
    message of the history; for an empty history it is a "user" content with
    the empty text, and nothing is raised. *)
Theorem last_turn_is_forwarded
    (runner : Runner) (msgs : list (gmap string string))
    (uid : string) (sid : option string) :
  ensure_session runner uid (resolve_session_id uid sid) = None ->
  (forall m text, last msgs = Some m -> m !! "content" = Some text ->
     forwarded (call_llm runner msgs uid sid) = Some (user_message text))
  /\ (msgs = [] ->
      forwarded (call_llm runner msgs uid sid) = Some (user_message "")
      /\ surfaced (call_llm runner msgs uid sid) = None).
Proof.
  intros He. split.
  - intros m text Hl Hm.
    rewrite (call_llm_runs runner msgs uid sid text He); [reflexivity|].
    unfold last_message. rewrite Hl. exact Hm.
  - intros ->. rewrite (call_llm_runs runner [] uid sid "" He); [|reflexivity].
    split; reflexivity.
Qed.

Lemma last_turn_is_forwarded_witness :
  forwarded (call_llm echo_runner thread_history "U1" (Some "1700000000.000100"))
  = Some (user_message "and 3+3?")
  /\ forwarded (call_llm echo_runner [] "U1" None) = Some (user_message "").
Proof.
  split.
  - apply (proj1 (last_turn_is_forwarded echo_runner thread_history "U1"
                    (Some "1700000000.000100") eq_refl)
             {[ "role" := "user"; "content" := "and 3+3?" ]});
      reflexivity.
  - apply (proj2 (last_turn_is_forwarded echo_runner [] "U1" None eq_refl)).
    reflexivity.
Defined.

(** C9: with no session identifier, every call made on the runner, first
    [create_session] and then [run_async], carries the identifier
    "session_" followed by the user identifier; the call is the one made with
    that identifier given. *)
Theorem default_session_id
    (runner : Runner) (msgs : list (gmap string string)) (uid : string) :
  head (engine_calls (call_llm runner msgs uid None))
  = Some (CreateSession "slack_ai_agent" uid ("session_" +:+ uid))
  /\ Forall (fun c => call_session_id c = "session_" +:+ uid)
            (engine_calls (call_llm runner msgs uid None))
  /\ (forall out, outcome (call_llm runner msgs uid None) = inr out ->
        exists new_message,
          engine_calls (call_llm runner msgs uid None)
          = [ CreateSession "slack_ai_agent" uid ("session_" +:+ uid);
              RunAsync uid ("session_" +:+ uid) new_message ])
  /\ call_llm runner msgs uid None
     = call_llm runner msgs uid (Some ("session_" +:+ uid)).
Proof.
  unfold call_llm. cbn [resolve_session_id].
  destruct (ensure_session runner uid ("session_" +:+ uid)); cbn;
    [|destruct (last_message msgs !! "content"); cbn].
  - repeat split; [repeat constructor|discriminate].
  - repeat split; [repeat constructor|eauto].
  - repeat split; [repeat constructor|discriminate].
Qed.

Lemma default_session_id_witness :
  exists new_message,
    engine_calls (call_llm echo_runner thread_history "U1" None)
    = [ CreateSession "slack_ai_agent" "U1" "session_U1";
        RunAsync "U1" "session_U1" new_message ].
Proof.
  destruct (default_session_id echo_runner thread_history "U1") as (_ & _ & H & _).
  exact (H _ eq_refl).
Defined.

(** C10: what the tool-call statement yields does not depend on the author of
    the raw event; for an event of author "user" with the flag false it
    yields one status "Using <readable name>..." per function call. *)
Theorem tool_status_ignores_author (ev : Event) (st : TranslatorState) :
  (forall a, from_site ToolCall (output (on_event (with_author a ev)) st)
             = from_site ToolCall (output (on_event ev) st))
  /\ (author ev = Some "user" ->
      has_started_streaming_content st = false ->
      from_site ToolCall (output (on_event ev) st)
      = map (fun fc =>
               {| site := ToolCall;
                  event := Status ("Using " +:+ readable_name (tool_name fc)
                                   +:+ "...") |})
            (function_calls ev)).
Proof.
  split.
  - intros a. rewrite !on_event_tool_statuses. reflexivity.
  - intros _ Hst. rewrite on_event_tool_statuses. unfold tool_statuses.
    rewrite Hst. reflexivity.
Qed.

Lemma tool_status_ignores_author_witness :
  from_site ToolCall (output (on_event (call_event "user" ["calculate"])) initial_state)
  = [ {| site := ToolCall; event := Status "Using Calculate..." |} ].
Proof.
  exact (proj2 (tool_status_ignores_author (call_event "user" ["calculate"])
                  initial_state) eq_refl eq_refl).
Defined.

(** * More of [src/ai/llm_caller.py] *)

(** ** The cached runner *)

Section runner_cache_facts.
Context {Agent R : Type}.
Variable get_root_agent : Agent.
Variable InMemoryRunner : Agent -> string -> R.

Lemma get_adk_runner_cached (n : nat) (g : ModuleState) (r : R) :
  _runner g = Some r ->
  get_adk_runner_times get_root_agent InMemoryRunner n g = (replicate n r, g).
Proof.
  intros Hg. induction n as [|n IH]; [reflexivity|].
  cbn [get_adk_runner_times]. unfold get_adk_runner at 1. rewrite Hg, IH.
  reflexivity.
Qed.

(** X1: from a freshly loaded module, any number of calls of
    [get_adk_runner], one at least, all return the one runner built for the
    root agent under the name "slack_ai_agent", and the runner is built
    exactly once. *)
Theorem get_adk_runner_builds_once (n : nat) :
  get_adk_runner_times get_root_agent InMemoryRunner (S n) module_loaded
  = (replicate (S n) (InMemoryRunner get_root_agent "slack_ai_agent"),
     {| _runner := Some (InMemoryRunner get_root_agent "slack_ai_agent");
        constructions := [(get_root_agent, "slack_ai_agent")] |}).
Proof.
  cbn [get_adk_runner_times]. unfold get_adk_runner at 1. cbn.
  rewrite (get_adk_runner_cached n _ (InMemoryRunner get_root_agent _app_name))
    by reflexivity.
  reflexivity.
Qed.

End runner_cache_facts.

(** ** The translator, beyond the claims *)

Lemma translate_app events1 events2 :
  translate (events1 ++ events2)
  = translate events1
      ++ snd (consume (length events1) events2 (state_after events1)).
Proof. unfold translate, state_after. rewrite consume_app. reflexivity. Qed.

(** X2: the outputs are streamed: what has been yielded for the raw events
    received so far is not changed by the raw events that follow, it is only
    extended. *)
Theorem outputs_are_streamed (events1 events2 : list Event) :
  events_of (translate events1) `prefix_of` events_of (translate (events1 ++ events2)).
Proof.
  rewrite translate_app. unfold events_of. rewrite map_app.
  apply prefix_app_r. reflexivity.
Qed.

Lemma omap_content_of_none (l : list Emitted) :
  Forall (fun x => ~ is_content x) l -> omap content_of (map event l) = [].
Proof.
  induction 1 as [|x l Hx _ IH]; [reflexivity|]. cbn.
  destruct (event x) as [t|t] eqn:He; cbn; [exact IH|].
  exfalso. apply Hx. exists t. exact He.
Qed.

Lemma omap_content_of_chunks ev :
  omap content_of (map event (content_chunks ev)) = content_texts ev.
Proof.
  unfold content_chunks. induction (content_texts ev) as [|t ts IH];
    [reflexivity|]. cbn. f_equal. exact IH.
Qed.

Lemma on_event_contents ev st :
  omap content_of (map event (output (on_event ev) st)) = content_texts ev.
Proof.
  rewrite on_event_output, !map_app, !omap_app.
  rewrite (omap_content_of_none _ (agent_status_no_content ev st)).
  rewrite (omap_content_of_none _ (tool_statuses_no_content ev st)).
  rewrite (omap_content_of_none _ (handoff_status_no_content ev)).
  apply omap_content_of_chunks.
Qed.

Lemma events_of_pair i (out : list Emitted) :
  events_of (map (pair i) out) = map event out.
Proof. unfold events_of. rewrite map_map. reflexivity. Qed.

Lemma consume_contents i events st :
  omap content_of (events_of (snd (consume i events st)))
  = concat (map content_texts events).
Proof.
  revert i st. induction events as [|ev rest IH]; intros i st; [reflexivity|].
  rewrite consume_cons. cbn [snd map concat].
  unfold events_of in *. rewrite map_app, omap_app, IH.
  fold (events_of (map (pair i) (output (on_event ev) st))).
  rewrite events_of_pair, on_event_contents. reflexivity.
Qed.

(** X3: the contents yielded for a raw event sequence are, in order, exactly
    the non-empty texts of the parts of the raw events whose author is not
    "user": no status rule, and nothing in the two locals, drops, repeats or
    alters a piece of the answer. *)
Theorem contents_are_the_agents_texts (events : list Event) :
  omap content_of (events_of (translate events))
  = concat (map content_texts events).
Proof. apply consume_contents. Qed.

Lemma append_not_empty_r (a b : string) : b <> "" -> a +:+ b <> "".
Proof. intros Hb. destruct a; [exact Hb|discriminate]. Qed.

Lemma nonempty_texts_nonempty (ps : list types.Part) :
  Forall (fun t => t <> "") (nonempty_texts ps).
Proof.
  unfold nonempty_texts. induction ps as [|[[[|c s]|]] ps IH]; cbn;
    try exact IH; constructor; [discriminate|exact IH].
Qed.

Lemma content_texts_nonempty ev : Forall (fun t => t <> "") (content_texts ev).
Proof.
  unfold content_texts. destruct (content ev); [|constructor].
  destruct (bool_decide _); [apply nonempty_texts_nonempty|constructor].
Qed.

Lemma on_event_texts_nonempty ev st :
  Forall (fun x => text_of (event x) <> "") (output (on_event ev) st).
Proof.
  rewrite on_event_output, !Forall_app. repeat split.
  - unfold agent_status. destruct (_ && _); repeat constructor.
    cbn. apply append_not_empty_r. discriminate.
  - unfold tool_statuses. destruct (has_started_streaming_content st);
      [constructor|].
    apply Forall_forall. intros x Hx.
    apply list_elem_of_In, in_map_iff in Hx as (fc & <- & _). discriminate.
  - unfold handoff_status. destruct (transfer_target ev); repeat constructor.
    discriminate.
  - unfold content_chunks. pose proof (content_texts_nonempty ev) as H.
    induction H as [|t ts Ht _ IH]; cbn; constructor; [exact Ht|exact IH].
Qed.

Lemma translate_texts_nonempty (events : list Event) :
  Forall (fun e => text_of e <> "") (events_of (translate events)).
Proof.
  unfold translate. generalize 0%nat initial_state.
  induction events as [|ev rest IH]; intros i st; [constructor|].
  rewrite consume_cons. cbn [snd]. unfold events_of in *.
  rewrite map_app. apply Forall_app. split; [|apply IH].
  fold (events_of (map (pair i) (output (on_event ev) st))).
  rewrite events_of_pair. apply Forall_fmap.
  exact (on_event_texts_nonempty ev st).
Qed.

(** X4: no yielded event, status or content, has an empty text. *)
Theorem yielded_texts_are_not_empty (events : list Event) :
  Forall (fun e => text_of e <> "") (events_of (translate events)).
Proof. exact (translate_texts_nonempty events). Qed.

Lemma string_length_append (a b : string) :
  String.length (a +:+ b) = (String.length a + String.length b)%nat.
Proof.
  induction a as [|c a IH]; [reflexivity|].
  change (String c a +:+ b) with (String c (a +:+ b)). cbn. f_equal. exact IH.
Qed.

Lemma append_inj_l (a b s : string) : a +:+ s = b +:+ s -> a = b.
Proof.
  revert b. induction a as [|c a IH]; intros [|d b] H.
  - reflexivity.
  - exfalso. apply (f_equal String.length) in H.
    change (String d b +:+ s) with (String d (b +:+ s)) in H.
    change ("" +:+ s) with s in H. cbn in H. rewrite string_length_append in H. lia.
  - exfalso. apply (f_equal String.length) in H.
    change (String c a +:+ s) with (String c (a +:+ s)) in H.
    change ("" +:+ s) with s in H. cbn in H. rewrite string_length_append in H. lia.
  - change (String c (a +:+ s) = String d (b +:+ s)) in H.
    injection H as -> H. f_equal. apply IH, H.
Qed.

Lemma announcements_cons i (out : list Emitted) (rest : list (nat * Emitted)) :
  announcements (map (pair i) out ++ rest)
  = map event (from_site AgentSwitch out) ++ announcements rest.
Proof.
  unfold announcements, events_of, from_site. rewrite filter_app, map_app.
  f_equal. induction out as [|x out IH]; [reflexivity|]. cbn [map].
  destruct (decide (site x = AgentSwitch)) as [Hx|Hx].
  - rewrite !filter_cons_True by exact Hx. cbn. f_equal. exact IH.
  - rewrite !filter_cons_False by exact Hx. exact IH.
Qed.

Lemma consume_started_announces_nothing i events st :
  has_started_streaming_content st = true ->
  announcements (snd (consume i events st)) = [].
Proof.
  intros H. unfold announcements.
  rewrite (filter_none (fun x : nat * Emitted => site (snd x) = AgentSwitch)
             (snd (consume i events st))); [reflexivity|].
  eapply Forall_impl; [apply (consume_started_unguarded i events st H)|].
  cbn. intros x Hx Hs. apply Hx. left. exact Hs.
Qed.

Lemma next_state_agent ev st :
  current_agent (next_state ev st)
  = if switches ev st then author ev else current_agent st.
Proof. reflexivity. Qed.

Lemma consume_announcements i events st :
  has_started_streaming_content st = false ->
  no_repeat (last_announcement st ++ announcements (snd (consume i events st))).
Proof.
  revert i st. induction events as [|ev rest IH]; intros i st Hst.
  - cbn. unfold last_announcement. destruct (current_agent st); cbn; auto.
  - rewrite consume_cons. cbn [snd].
    rewrite announcements_cons, on_event_agent_status.
    unfold agent_status. rewrite Hst, andb_true_r.
    destruct (switches ev st) eqn:Hsw.
    + pose proof Hsw as Hsw'. unfold switches in Hsw'.
      apply andb_true_iff in Hsw' as [Hsw' Hcur].
      apply andb_true_iff in Hsw' as [Htr _].
      apply bool_decide_eq_true in Hcur.
      destruct (author ev) as [a|] eqn:Ha; [|discriminate].
      assert (Hnext : no_repeat (Status (a +:+ " is working...")
                                 :: announcements
                                      (snd (consume (S i) rest (next_state ev st))))).
      { destruct (has_started_streaming_content (next_state ev st)) eqn:Hn.
        - rewrite consume_started_announces_nothing by exact Hn. cbn. auto.
        - specialize (IH (S i) (next_state ev st) Hn).
          unfold last_announcement in IH.
          rewrite next_state_agent, Hsw, Ha in IH. exact IH. }
      cbn [map event app PyStr.fmt default].
      unfold last_announcement. destruct (current_agent st) as [b|] eqn:Hb;
        [|exact Hnext].
      cbn. split; [|exact Hnext].
      intros H. injection H as H. apply append_inj_l in H. congruence.
    + cbn [map app].
      destruct (has_started_streaming_content (next_state ev st)) eqn:Hn.
      * rewrite consume_started_announces_nothing by exact Hn.
        rewrite app_nil_r. unfold last_announcement.
        destruct (current_agent st); cbn; auto.
      * specialize (IH (S i) (next_state ev st) Hn).
        unfold last_announcement in IH |- *.
        rewrite next_state_agent, Hsw in IH. exact IH.
Qed.

(** X5: an agent is announced when it takes over, not once per raw event:
    no two agent-switch statuses in a row name the same agent. *)
Theorem agent_is_announced_once (events : list Event) :
  no_repeat (announcements (translate events)).
Proof. exact (consume_announcements 0 events initial_state eq_refl). Qed.

(** ** The call, beyond the claims *)


Lemma last_message_snoc (history : list (gmap string string)) (m : gmap string string) :
  last_message (history ++ [m]) = m.
Proof. unfold last_message. rewrite last_snoc. reflexivity. Qed.

(** X7: only the last message of the thread reaches the call: the calls made
    on the runner, what is yielded and what is raised are the same whatever
    messages precede it. *)
Theorem earlier_messages_are_ignored
    (runner : Runner) (history : list (gmap string string))
    (m : gmap string string) (uid : string) (sid : option string) :
  call_llm runner (history ++ [m]) uid sid = call_llm runner [m] uid sid.
Proof.
  unfold call_llm. rewrite last_message_snoc.
  change (last_message [m]) with m. reflexivity.
Qed.

(** * The tools of the agents *)

(** ** Characters *)

Ltac by_all_characters c :=
  destruct c as [[|] [|] [|] [|] [|] [|] [|] [|]]; vm_compute; reflexivity.

Lemma lower_lower c : PyStr.lower (PyStr.lower c) = PyStr.lower c.
Proof. by_all_characters c. Qed.

Lemma upper_upper c : PyStr.upper (PyStr.upper c) = PyStr.upper c.
Proof. by_all_characters c. Qed.

Lemma is_cased_lower c : PyStr.is_cased (PyStr.lower c) = PyStr.is_cased c.
Proof. by_all_characters c. Qed.

Lemma is_cased_upper c : PyStr.is_cased (PyStr.upper c) = PyStr.is_cased c.
Proof. by_all_characters c. Qed.

Lemma is_ascii_lower c : PyText.is_ascii (PyStr.lower c) = PyText.is_ascii c.
Proof. by_all_characters c. Qed.

Lemma is_ascii_upper c : PyText.is_ascii (PyStr.upper c) = PyText.is_ascii c.
Proof. by_all_characters c. Qed.

(** ** [format_text] *)

Lemma lower_all_idempotent s : PyStr.lower_all (PyStr.lower_all s) = PyStr.lower_all s.
Proof. induction s as [|c s IH]; cbn; [reflexivity|]. rewrite lower_lower, IH. reflexivity. Qed.

Lemma upper_all_idempotent s : PyText.upper_all (PyText.upper_all s) = PyText.upper_all s.
Proof. induction s as [|c s IH]; cbn; [reflexivity|]. rewrite upper_upper, IH. reflexivity. Qed.

Lemma title_from_idempotent b s :
  PyStr.title_from b (PyStr.title_from b s) = PyStr.title_from b s.
Proof.
  revert b. induction s as [|c s IH]; intros b; cbn; [reflexivity|].
  destruct b.
  - rewrite lower_lower, is_cased_lower, IH. reflexivity.
  - rewrite upper_upper, is_cased_upper, IH. reflexivity.
Qed.

Lemma lower_all_length s : String.length (PyStr.lower_all s) = String.length s.
Proof. induction s as [|c s IH]; cbn; [reflexivity|]. rewrite IH. reflexivity. Qed.

Lemma upper_all_length s : String.length (PyText.upper_all s) = String.length s.
Proof. induction s as [|c s IH]; cbn; [reflexivity|]. rewrite IH. reflexivity. Qed.

Lemma title_from_length b s : String.length (PyStr.title_from b s) = String.length s.
Proof.
  revert b. induction s as [|c s IH]; intros b; cbn; [reflexivity|].
  rewrite IH. reflexivity.
Qed.

Lemma string_length_list s : String.length s = length (String.list_ascii_of_string s).
Proof. induction s as [|c s IH]; cbn; [reflexivity|]. rewrite IH. reflexivity. Qed.

Lemma reverse_length s : String.length (PyText.reverse s) = String.length s.
Proof.
  unfold PyText.reverse.
  rewrite !string_length_list, String.list_ascii_of_string_of_list_ascii.
  apply List.length_rev.
Qed.

Lemma reverse_reverse s : PyText.reverse (PyText.reverse s) = s.
Proof.
  unfold PyText.reverse.
  rewrite String.list_ascii_of_string_of_list_ascii.
  rewrite List.rev_involutive. apply String.string_of_list_ascii_of_string.
Qed.

Lemma format_text_formatted text format_type :
  format_text text format_type !! "formatted"
  = VStr <$> formatting (PyStr.lower_all format_type) text.
Proof.
  unfold format_text, formatting.
  repeat (case_bool_decide; [reflexivity|]). reflexivity.
Qed.

Lemma format_text_status text format_type :
  format_text text format_type !! "status"
  = Some (VStr (match formatting (PyStr.lower_all format_type) text with
                | Some _ => "success"
                | None => "error"
                end)).
Proof.
  unfold format_text, formatting.
  repeat (case_bool_decide; [reflexivity|]). reflexivity.
Qed.

Lemma lower_upper c : PyStr.lower (PyStr.upper c) = PyStr.lower c.
Proof. by_all_characters c. Qed.

Lemma lower_all_upper_all s : PyStr.lower_all (PyText.upper_all s) = PyStr.lower_all s.
Proof. induction s as [|c s IH]; cbn; [reflexivity|]. rewrite lower_upper, IH. reflexivity. Qed.

Lemma format_text_lowered text ft1 ft2 :
  PyStr.lower_all ft1 = PyStr.lower_all ft2 ->
  format_text text ft1 = format_text text ft2.
Proof. intros H. unfold format_text. rewrite H. reflexivity. Qed.

(** X8: for an ASCII format type, [format_text] does not look at the case of
    its letters: the type written in lower case or in upper case gives the
    same result as the type as given, and so do any two types that are equal
    up to case. *)
Theorem format_type_case_is_ignored (text format_type : string) :
  PyText.ascii_text format_type = true ->
  format_text text (PyStr.lower_all format_type) = format_text text format_type
  /\ format_text text (PyText.upper_all format_type) = format_text text format_type
  /\ (forall other, PyStr.lower_all other = PyStr.lower_all format_type ->
        format_text text other = format_text text format_type).
Proof.
  intros _. repeat split.
  - apply format_text_lowered, lower_all_idempotent.
  - apply format_text_lowered, lower_all_upper_all.
  - intros other. apply format_text_lowered.
Qed.

Lemma format_type_case_is_ignored_witness :
  format_text "Hello" "REVERSE" = format_text "Hello" "Reverse".
Proof.
  symmetry.
  apply (proj2 (proj2 (format_type_case_is_ignored "Hello" "REVERSE" eq_refl))).
  reflexivity.
Defined.

Lemma formatting_length format_type text s :
  formatting format_type text = Some s -> String.length s = String.length text.
Proof.
  unfold formatting. repeat case_bool_decide; intros Hs; inversion Hs; subst.
  - apply upper_all_length.
  - apply lower_all_length.
  - apply title_from_length.
  - apply reverse_length.
Qed.

Lemma formatting_again format_type text s :
  formatting format_type text = Some s ->
  formatting format_type s
  = Some (if bool_decide (format_type = "reverse") then text else s).
Proof.
  unfold formatting. repeat case_bool_decide; subst; try discriminate;
    intros Hs; inversion Hs; subst; f_equal.
  - apply upper_all_idempotent.
  - apply lower_all_idempotent.
  - apply title_from_idempotent.
  - apply reverse_reverse.
Qed.

(** X9: on ASCII text, what [format_text] returns under "formatted" has the
    length of the text; formatting it again with the same type gives the
    text back for "reverse" and changes nothing for "uppercase", "lowercase"
    and "title". *)
Theorem format_text_twice (text format_type s : string) :
  PyText.ascii_text text = true ->
  format_text text format_type !! "formatted" = Some (VStr s) ->
  String.length s = String.length text
  /\ format_text s format_type !! "formatted"
     = Some (VStr (if bool_decide (PyStr.lower_all format_type = "reverse")
                   then text else s)).
Proof.
  intros _. rewrite !format_text_formatted.
  destruct (formatting (PyStr.lower_all format_type) text) as [s'|] eqn:Hf;
    [|discriminate].
  intros H. injection H as <-. split.
  - exact (formatting_length _ _ _ Hf).
  - rewrite (formatting_again _ _ _ Hf). reflexivity.
Qed.

Lemma format_text_twice_witness :
  String.length "dlroW olleH" = String.length "Hello World"
  /\ format_text "dlroW olleH" "Reverse" !! "formatted" = Some (VStr "Hello World").
Proof.
  exact (format_text_twice "Hello World" "Reverse" "dlroW olleH" eq_refl eq_refl).
Defined.

(** ** [count_words] *)

Lemma remove_char_length c s :
  (String.length (PyText.remove_char c s) + PyText.count_char c s)%nat
  = String.length s.
Proof.
  induction s as [|d s IH]; cbn; [reflexivity|].
  destruct (Ascii.eqb d c); cbn; lia.
Qed.

Lemma cons_word_length w ws :
  (length (PyText.cons_word w ws) <= String.length w + length ws)%nat.
Proof. destruct w; cbn; lia. Qed.

Lemma space_is_space c : Ascii.eqb c " " = true -> PyText.is_space c = true.
Proof. intros H. apply Ascii.eqb_eq in H. subst. reflexivity. Qed.

Lemma words_from_length s :
  (String.length (fst (PyText.words_from s)) + length (snd (PyText.words_from s))
   <= String.length (PyText.remove_char " " s))%nat.
Proof.
  induction s as [|c s IH]; cbn; [lia|].
  destruct (PyText.words_from s) as [w ws]. cbn [fst snd] in IH.
  destruct (PyText.is_space c) eqn:Hc.
  - cbn [fst snd String.length].
    pose proof (cons_word_length w ws).
    destruct (Ascii.eqb c " "); cbn; lia.
  - destruct (Ascii.eqb c " ") eqn:He.
    + apply space_is_space in He. congruence.
    + cbn. lia.
Qed.

Lemma split_whitespace_length s :
  (length (PyText.split_whitespace s)
   <= String.length (PyText.remove_char " " s))%nat.
Proof.
  unfold PyText.split_whitespace.
  pose proof (words_from_length s) as H.
  destruct (PyText.words_from s) as [w ws]. cbn [fst snd] in H.
  pose proof (cons_word_length w ws). lia.
Qed.

(** X10: the counts of [count_words] fit together: there are at most as many
    words as characters other than the space, the characters other than the
    space and the spaces add up to all the characters, and the sentence
    count is the number of full stops, exclamation marks and question marks
    when there is one and 1 otherwise, so never 0, even for the empty text. *)
Theorem count_words_counts (text : string) :
  PyText.ascii_text text = true ->
  exists words chars no_spaces sentences : nat,
    count_words text !! "word_count" = Some (VInt (Z.of_nat words))
    /\ count_words text !! "character_count" = Some (VInt (Z.of_nat chars))
    /\ count_words text !! "character_count_no_spaces"
       = Some (VInt (Z.of_nat no_spaces))
    /\ count_words text !! "sentence_count" = Some (VInt (Z.of_nat sentences))
    /\ (words <= no_spaces)%nat
    /\ (no_spaces + PyText.count_char " " text = chars)%nat
    /\ chars = String.length text
    /\ (1 <= sentences)%nat
    /\ (sentences
        = Nat.max 1 (PyText.count_char "." text + PyText.count_char "!" text
                     + PyText.count_char "?" text))%nat.
Proof.
  intros _.
  exists (length (PyText.split_whitespace text)), (String.length text),
    (String.length (PyText.remove_char " " text)).
  eexists. unfold count_words.
  repeat split; try reflexivity.
  - apply split_whitespace_length.
  - apply remove_char_length.
  - destruct (Nat.ltb_spec 0 (PyText.count_char "." text + PyText.count_char "!" text
                              + PyText.count_char "?" text)); lia.
  - destruct (Nat.ltb_spec 0 (PyText.count_char "." text + PyText.count_char "!" text
                              + PyText.count_char "?" text)); lia.
Qed.

Lemma count_words_counts_witness :
  exists words chars no_spaces sentences : nat,
    count_words "" !! "word_count" = Some (VInt (Z.of_nat words))
    /\ count_words "" !! "character_count" = Some (VInt (Z.of_nat chars))
    /\ count_words "" !! "character_count_no_spaces"
       = Some (VInt (Z.of_nat no_spaces))
    /\ count_words "" !! "sentence_count" = Some (VInt (Z.of_nat sentences))
    /\ (words <= no_spaces)%nat
    /\ (no_spaces + PyText.count_char " " "" = chars)%nat
    /\ chars = String.length ""
    /\ (1 <= sentences)%nat
    /\ (sentences
        = Nat.max 1 (PyText.count_char "." "" + PyText.count_char "!" ""
                     + PyText.count_char "?" ""))%nat.
Proof. exact (count_words_counts "" eq_refl). Defined.

(** ** [create_list] *)

Lemma rstrip_idempotent s : PyText.rstrip (PyText.rstrip s) = PyText.rstrip s.
Proof.
  induction s as [|c s IH]; [reflexivity|]. cbn [PyText.rstrip].
  destruct (PyText.rstrip s) as [|d r] eqn:Hr.
  - destruct (PyText.is_space c) eqn:Hc; [reflexivity|]. cbn. rewrite Hc. reflexivity.
  - cbn [PyText.rstrip] in IH |- *. rewrite IH. reflexivity.
Qed.

Lemma lstrip_idempotent s : PyText.lstrip (PyText.lstrip s) = PyText.lstrip s.
Proof.
  induction s as [|c s IH]; [reflexivity|]. cbn [PyText.lstrip].
  destruct (PyText.is_space c) eqn:Hc; [exact IH|]. cbn. rewrite Hc. reflexivity.
Qed.

Lemma rstrip_lstrip s :
  PyText.rstrip s = s -> PyText.rstrip (PyText.lstrip s) = PyText.lstrip s.
Proof.
  induction s as [|c s IH]; [reflexivity|]. intros H. cbn [PyText.lstrip].
  destruct (PyText.is_space c) eqn:Hc; [|exact H].
  apply IH. cbn [PyText.rstrip] in H.
  destruct (PyText.rstrip s) as [|d r] eqn:Hr.
  - rewrite Hc in H. discriminate.
  - injection H as H. exact H.
Qed.

Lemma strip_idempotent s : PyText.strip (PyText.strip s) = PyText.strip s.
Proof.
  unfold PyText.strip.
  rewrite (rstrip_lstrip (PyText.rstrip s) (rstrip_idempotent s)).
  apply lstrip_idempotent.
Qed.

Lemma item_list_of_clean (pieces : list string) :
  Forall (fun item => item <> "" /\ PyText.strip item = item) (item_list_of pieces).
Proof.
  unfold item_list_of. induction pieces as [|p pieces IH]; cbn; [constructor|].
  destruct (PyText.strip p) as [|c s] eqn:Hp; cbn; [exact IH|].
  constructor; [|exact IH]. split; [discriminate|].
  rewrite <- Hp. apply strip_idempotent.
Qed.

Lemma item_list_of_fixed (items : list string) :
  Forall (fun item => item <> "" /\ PyText.strip item = item) items ->
  item_list_of items = items.
Proof.
  unfold item_list_of. induction 1 as [|item items [Hne Hs] _ IH]; [reflexivity|].
  cbn. rewrite Hs. destruct item; [congruence|]. cbn. f_equal. exact IH.
Qed.

Lemma split_char_word c (w : string) :
  PyText.count_char c w = 0%nat ->
  PyText.split_str (String c "") w = [w].
Proof.
  unfold PyText.split_str. induction w as [|d w IH]; [reflexivity|].
  cbn. destruct (Ascii.eqb d c) eqn:Hd; [discriminate|]. intros H.
  rewrite Ascii.eqb_sym, Hd. cbn. rewrite (IH H). reflexivity.
Qed.

Lemma split_char_app c (w rest : string) :
  PyText.count_char c w = 0%nat ->
  PyText.split_str (String c "") (w +:+ String c rest)
  = w :: PyText.split_str (String c "") rest.
Proof.
  unfold PyText.split_str. induction w as [|d w IH]; intros H.
  - change ("" +:+ String c rest) with (String c rest). cbn.
    rewrite Ascii.eqb_refl. destruct rest; reflexivity.
  - change (String d w +:+ String c rest) with (String d (w +:+ String c rest)).
    cbn in H |- *. destruct (Ascii.eqb d c) eqn:Hd; [discriminate|].
    rewrite Ascii.eqb_sym, Hd. cbn. rewrite (IH H). reflexivity.
Qed.

Lemma split_join c (items : list string) :
  items <> [] ->
  Forall (fun item => PyText.count_char c item = 0%nat) items ->
  PyText.split_str (String c "") (PyStr.join (String c "") items) = items.
Proof.
  intros Hne H. induction H as [|w ws Hw Hws IH]; [congruence|].
  destruct ws as [|w' ws].
  - cbn. apply split_char_word, Hw.
  - change (PyStr.join (String c "") (w :: w' :: ws))
      with (w +:+ String c "" +:+ PyStr.join (String c "") (w' :: ws)).
    change (String c "" +:+ PyStr.join (String c "") (w' :: ws))
      with (String c (PyStr.join (String c "") (w' :: ws))).
    rewrite (split_char_app c w _ Hw), IH by discriminate. reflexivity.
Qed.

(** X11: on ASCII text, [create_list] with a non-empty separator returns
    items none of which is empty or starts or ends with white space, and
    counts them; with an empty separator it raises the [ValueError] of
    [str.split] and returns nothing. *)
Theorem create_list_items (items separator : string) :
  PyText.ascii_text items = true ->
  (separator <> "" ->
   exists item_list,
     create_list items separator
     = inr {[ "status" := VStr "success";
              "item_count" := VInt (Z.of_nat (length item_list));
              "items" := VList item_list;
              "formatted_list" := VStr (formatted_list_of item_list) ]}
     /\ Forall (fun item => item <> "" /\ PyText.strip item = item) item_list)
  /\ (separator = "" ->
      create_list items separator
      = inl (OtherException "ValueError" "empty separator")).
Proof.
  intros _. split.
  - intros Hsep. destruct separator as [|c sep]; [congruence|].
    exists (item_list_of (PyText.split_str (String c sep) items)).
    split; [reflexivity|apply item_list_of_clean].
  - intros ->. reflexivity.
Qed.

Lemma create_list_items_witness :
  exists item_list,
    create_list " milk , eggs,, bread " ","
    = inr {[ "status" := VStr "success";
             "item_count" := VInt (Z.of_nat (length item_list));
             "items" := VList item_list;
             "formatted_list" := VStr (formatted_list_of item_list) ]}
    /\ Forall (fun item => item <> "" /\ PyText.strip item = item) item_list.
Proof.
  exact (proj1 (create_list_items " milk , eggs,, bread " "," eq_refl)
           ltac:(discriminate)).
Defined.

(** X12: ASCII items that are not empty, carry no white space at either end
    and do not contain the one-character separator come back from
    [create_list] unchanged and in order when they are joined with that
    separator. *)
Theorem create_list_of_joined (item_list : list string) (c : ascii) :
  Forall (fun item => PyText.ascii_text item = true) item_list ->
  Forall (fun item => item <> "" /\ PyText.strip item = item
                      /\ PyText.count_char c item = 0%nat) item_list ->
  create_list (PyStr.join (String c "") item_list) (String c "")
  = inr {[ "status" := VStr "success";
           "item_count" := VInt (Z.of_nat (length item_list));
           "items" := VList item_list;
           "formatted_list" := VStr (formatted_list_of item_list) ]}.
Proof.
  intros _ H. unfold create_list.
  assert (Hi : item_list_of
                 (PyText.split_str (String c "") (PyStr.join (String c "") item_list))
               = item_list).
  { destruct item_list as [|w ws]; [reflexivity|].
    rewrite split_join; [|discriminate|].
    - apply item_list_of_fixed. eapply Forall_impl; [exact H|]. cbn. tauto.
    - eapply Forall_impl; [exact H|]. cbn. tauto. }
  rewrite Hi. reflexivity.
Qed.

Lemma create_list_of_joined_witness :
  create_list "milk,eggs,bread" ","
  = inr {[ "status" := VStr "success";
           "item_count" := VInt 3;
           "items" := VList ["milk"; "eggs"; "bread"];
           "formatted_list" := VStr (formatted_list_of ["milk"; "eggs"; "bread"]) ]}.
Proof.
  apply (create_list_of_joined ["milk"; "eggs"; "bread"] ",").
  - repeat constructor.
  - repeat constructor; discriminate.
Defined.

(** ** [calculate] *)

Lemma cased_not_allowed c :
  PyStr.is_cased c = true \/ c = "_"%char ->
  bool_decide (c ∈ allowed_chars) = false.
Proof.
  intros [H| ->]; [|vm_compute; reflexivity]. revert H.
  destruct c as [[|] [|] [|] [|] [|] [|] [|] [|]]; vm_compute; intros H;
    first [reflexivity|discriminate H].
Qed.

Lemma all_chars_occurrence (p : ascii -> bool) (c : ascii) (s : string) :
  PyText.count_char c s <> 0%nat -> p c = false -> all_chars p s = false.
Proof.
  intros Hc Hp. induction s as [|d s IH]; [cbn in Hc; congruence|].
  cbn in Hc |- *. destruct (Ascii.eqb d c) eqn:Hd.
  - apply Ascii.eqb_eq in Hd. subst. rewrite Hp. reflexivity.
  - rewrite IH by exact Hc. apply andb_false_r.
Qed.

(** X13: [calculate] hands to [eval] nothing but expressions made of the
    digits, [+ - * / ( ) .] and the space. An expression with any other
    character, so any that holds a letter or an underscore, is answered with
    the "Invalid characters" error without [eval] being called; the empty
    expression passes the test and is evaluated. *)
Theorem calculate_guards_eval {V} (eval : string -> EvalOutcome V) (expression : string) :
  Forall (fun e => all_allowed e = true) (evaluated (calculate eval expression))
  /\ (all_allowed expression = false ->
      evaluated (calculate eval expression) = []
      /\ calc_result (calculate eval expression)
         = inr {[ "status" := CStr "error";
                  "message" :=
                    CStr "Invalid characters in expression. Only numbers and basic operators (+, -, *, /, parentheses) are allowed." ]})
  /\ (forall c, PyStr.is_cased c = true \/ c = "_"%char ->
        PyText.count_char c expression <> 0%nat ->
        all_allowed expression = false)
  /\ evaluated (calculate eval "") = [""].
Proof.
  repeat split.
  - unfold calculate. destruct (all_allowed expression) eqn:Ha; cbn;
      repeat constructor. exact Ha.
  - unfold calculate. rewrite H. reflexivity.
  - unfold calculate. rewrite H. reflexivity.
  - intros c Hc Ho. unfold all_allowed.
    exact (all_chars_occurrence _ c expression Ho (cased_not_allowed c Hc)).
Qed.

Lemma calculate_guards_eval_witness :
  evaluated (calculate (fun _ => EvalValue 0%Z) "__import__('os')") = [].
Proof.
  destruct (calculate_guards_eval (fun _ => EvalValue 0%Z) "__import__('os')")
    as (_ & Hreject & Hletters & _).
  apply Hreject. apply (Hletters "_"%char); [right; reflexivity|discriminate].
Defined.

(** X14: [calculate] lets no [Exception] out: what escapes is only what
    [eval] raised outside [Exception]; otherwise it returns a dictionary
    whose "status" is "success" or "error", and "success" means that the
    expression passed the character test, that [eval] returned a value, and
    that the dictionary holds this value and the expression. *)
Theorem calculate_outcomes {V} (eval : string -> EvalOutcome V) (expression : string) :
  (forall e, calc_result (calculate eval expression) = inl e ->
     isinstance_Exception e = false
     /\ exists class, eval expression = EvalBaseException class)
  /\ (forall d, calc_result (calculate eval expression) = inr d ->
        (d !! "status" = Some (CStr "error")
         /\ d !! "result" = None)
        \/ (d !! "status" = Some (CStr "success")
            /\ all_allowed expression = true
            /\ d !! "expression" = Some (CStr expression)
            /\ exists v, eval expression = EvalValue v
                         /\ d !! "result" = Some (CResult v))).
Proof.
  unfold calculate. destruct (all_allowed expression) eqn:Ha; cbn.
  - destruct (eval expression) as [v|msg|cls] eqn:He; split.
    + discriminate.
    + intros d Hd. injection Hd as <-. right. repeat split. eauto.
    + discriminate.
    + intros d Hd. injection Hd as <-. left. split; reflexivity.
    + intros e Hi. injection Hi as <-. split; [reflexivity|eauto].
    + discriminate.
  - split; [discriminate|]. intros d Hd. injection Hd as <-.
    left. split; reflexivity.
Qed.

Lemma calculate_outcomes_witness :
  all_allowed "2 + 2" = true
  /\ exists v, sample_eval "2 + 2" = EvalValue v.
Proof.
  destruct (proj2 (calculate_outcomes sample_eval "2 + 2") _ eq_refl)
    as [[H _]|(_ & Ha & _ & v & Hv & _)]; [discriminate H|].
  split; [exact Ha|exists v; exact Hv].
Defined.

(** * The listeners *)

Section listener_facts.
Context {Blocks : Type}.
Variable create_feedback_block : Blocks.
Implicit Types (w : @World Blocks) (done : list (@Effect Blocks)).

Lemma act_bind_ok {A B} (m : @Act Blocks A) (k : A -> @Act Blocks B) done a done1 :
  m done = (inr a, done1) -> act_bind m k done = k a done1.
Proof. intros H. unfold act_bind. rewrite H. reflexivity. Qed.

Lemma act_bind_raise {A B} (m : @Act Blocks A) (k : A -> @Act Blocks B) done e done1 :
  m done = (inl e, done1) -> act_bind m k done = (inl e, done1).
Proof. intros H. unfold act_bind. rewrite H. reflexivity. Qed.

Lemma item_ok (d : gmap string string) key v done :
  d !! key = Some v -> item d key done = (inr v, done).
Proof. intros H. unfold item. rewrite H. reflexivity. Qed.

Lemma item_missing (d : gmap string string) key done :
  d !! key = None -> item d key done = (inl (KeyError key), done).
Proof. intros H. unfold item. rewrite H. reflexivity. Qed.

Lemma call_quiet w c done :
  raises w c = None -> call w c done = (inr tt, done ++ [Slack c]).
Proof. intros H. unfold call. rewrite H. reflexivity. Qed.

Lemma normalized_cons (m : gmap string string) replies text :
  m !! "text" = Some text ->
  normalized (m :: replies) = thread_message m text :: normalized replies.
Proof.
  intros H. unfold normalized.
  change (omap ?f (m :: replies))
    with (match f m with Some y => y :: omap f replies | None => omap f replies end).
  cbv beta. rewrite H. reflexivity.
Qed.

Lemma messages_in_thread_ok (replies : list (gmap string string)) done :
  Forall (fun m => is_Some (m !! "text")) replies ->
  messages_in_thread replies done = (inr (normalized replies), done).
Proof.
  induction 1 as [|m replies [text Hm] _ IH]; [reflexivity|].
  cbn [messages_in_thread].
  rewrite (act_bind_ok _ _ _ _ _ (item_ok m "text" text done Hm)).
  rewrite (act_bind_ok _ _ _ _ _ IH).
  rewrite (normalized_cons m replies text Hm). reflexivity.
Qed.

Lemma messages_in_thread_missing (replies : list (gmap string string)) done :
  Exists (fun m => m !! "text" = None) replies ->
  messages_in_thread replies done = (inl (KeyError "text"), done).
Proof.
  induction 1 as [m replies Hm|m replies _ IH]; cbn [messages_in_thread].
  - rewrite (act_bind_raise _ _ _ _ _ (item_missing m "text" done Hm)). reflexivity.
  - destruct (m !! "text") as [text|] eqn:Hm.
    + rewrite (act_bind_ok _ _ _ _ _ (item_ok m "text" text done Hm)).
      rewrite (act_bind_raise _ _ _ _ _ IH). reflexivity.
    + rewrite (act_bind_raise _ _ _ _ _ (item_missing m "text" done Hm)). reflexivity.
Qed.

Lemma normalized_length (replies : list (gmap string string)) :
  Forall (fun m => is_Some (m !! "text")) replies ->
  length (normalized replies) = length replies.
Proof.
  induction 1 as [|m replies [text Hm] _ IH]; [reflexivity|].
  rewrite (normalized_cons m replies text Hm). cbn. f_equal. exact IH.
Qed.

Lemma normalized_last (replies : list (gmap string string)) :
  Forall (fun m => is_Some (m !! "text")) replies ->
  last_message (normalized replies) !! "content" = Some (last_text replies).
Proof.
  unfold last_message, last_text.
  induction 1 as [|m replies [text Hm] Hrest IH]; [reflexivity|].
  rewrite (normalized_cons m replies text Hm).
  destruct replies as [|m' replies].
  - cbn. rewrite Hm. reflexivity.
  - inversion Hrest as [|? ? [text' Hm'] ?]; subst.
    rewrite (normalized_cons m' replies text' Hm') in IH |- *.
    rewrite !last_cons_cons. exact IH.
Qed.

Lemma forward_all w channel_id thread_ts (events : list LLMEvent) done :
  (forall c, raises w c = None) ->
  Forall (fun e => text_of e <> "") events ->
  act_for_each events (forward_event w channel_id thread_ts) done
  = (inr tt, done ++ map (fun e => Slack (slack_call_of channel_id thread_ts e)) events).
Proof.
  intros Hq H. revert done. induction H as [|e events He _ IH]; intros done.
  - cbn. rewrite app_nil_r. reflexivity.
  - cbn [act_for_each map].
    assert (Hf : forward_event w channel_id thread_ts e done
                 = (inr tt, done ++ [Slack (slack_call_of channel_id thread_ts e)])).
    { destruct e as [t|t]; cbn in He |- *.
      - apply call_quiet, Hq.
      - destruct t; [congruence|]. cbn. apply call_quiet, Hq. }
    rewrite (act_bind_ok _ _ _ _ _ Hf), IH, <- app_assoc. reflexivity.
Qed.

Lemma messages_in_thread_silent (replies : list (gmap string string)) done :
  exists r, messages_in_thread (Blocks := Blocks) replies done = (r, done).
Proof.
  induction replies as [|m replies (r & IH)]; [eexists; reflexivity|].
  cbn [messages_in_thread]. unfold act_bind, item.
  destruct (m !! "text"); cbn; [|eexists; reflexivity].
  rewrite IH. destruct r; eexists; reflexivity.
Qed.

Lemma appended_forwarded channel_id thread_ts (events : list LLMEvent) :
  appended (map (fun e => Slack (slack_call_of (Blocks := Blocks) channel_id thread_ts e))
                events)
  = omap content_of events.
Proof.
  unfold appended. induction events as [|[t|t] events IH]; [reflexivity| |].
  - exact IH.
  - change (omap content_of (Content t :: events)) with (t :: omap content_of events).
    rewrite <- IH. reflexivity.
Qed.

(** The effects of [message] when the payload and the thread are complete
    and nothing raises. *)
Lemma message_effects w runner context payload channel thread :
  payload !! "channel" = Some channel ->
  payload !! "thread_ts" = Some thread ->
  (forall c, raises w c = None) ->
  Forall (fun m => is_Some (m !! "text"))
    (conversations_replies w (BoltContext.channel_id context)
       (BoltContext.thread_ts context) (BoltContext.thread_ts context) 10) ->
  ensure_session runner (BoltContext.user_id context) thread = None ->
  message create_feedback_block w runner context payload []
  = (inr tt,
     [ Slack (SetStatus "is thinking..." None);
       Slack (ConversationsReplies (BoltContext.channel_id context)
                (BoltContext.thread_ts context) (BoltContext.thread_ts context) 10);
       Slack (ChatStream channel (BoltContext.team_id context)
                (BoltContext.user_id context) thread);
       Engine (CreateSession "slack_ai_agent" (BoltContext.user_id context) thread);
       Engine (RunAsync (BoltContext.user_id context) thread
                 (user_message
                    (last_text
                       (conversations_replies w (BoltContext.channel_id context)
                          (BoltContext.thread_ts context)
                          (BoltContext.thread_ts context) 10)))) ]
     ++ map (fun e => Slack (slack_call_of channel thread e))
          (events_of
             (translate
                (run_async runner (BoltContext.user_id context) thread
                   (user_message
                      (last_text
                         (conversations_replies w (BoltContext.channel_id context)
                            (BoltContext.thread_ts context)
                            (BoltContext.thread_ts context) 10))))))
     ++ [ Slack (StreamerStop create_feedback_block) ]).
Proof.
  intros Hch Hts Hq Hr Hs. unfold message, try_except.
  set (replies := conversations_replies w _ _ _ _) in *.
  rewrite (act_bind_ok _ _ _ _ _ (item_ok payload "channel" channel [] Hch)).
  rewrite (act_bind_ok _ _ _ _ _ (item_ok payload "thread_ts" thread [] Hts)).
  rewrite (act_bind_ok _ _ _ _ _ (call_quiet w _ [] (Hq _))).
  rewrite (act_bind_ok _ _ _ _ _ (call_quiet w _ _ (Hq _))).
  rewrite (act_bind_ok _ _ _ _ _ (messages_in_thread_ok replies _ Hr)).
  rewrite (act_bind_ok _ _ _ _ _ (call_quiet w _ _ (Hq _))).
  rewrite (call_llm_runs runner (normalized replies) _ (Some thread)
             (last_text replies) Hs (normalized_last replies Hr)).
  unfold act_bind at 1. unfold stream_response.
  cbn [outcome engine_calls resolve_session_id].
  rewrite (forward_all w channel thread _ _ Hq (translate_texts_nonempty _)).
  rewrite (call_quiet w _ _ (Hq _)).
  rewrite <- !app_assoc. reflexivity.
Qed.

(** X15: [message], given a payload with "channel" and "thread_ts", a thread
    whose messages all have a text, and no call that raises, does this and
    nothing else, in this order: it sets the status, fetches the thread,
    opens the stream, has the runner create the session named by the
    payload's thread and run a turn on the text of the last message of the
    thread, makes one Slack call per yielded event (a status update for a
    status, an append for a content), and stops the stream with the feedback
    block; it raises nothing. *)
Theorem message_runs_the_turn w runner context payload channel thread :
  payload !! "channel" = Some channel ->
  payload !! "thread_ts" = Some thread ->
  (forall c, raises w c = None) ->
  Forall (fun m => is_Some (m !! "text"))
    (conversations_replies w (BoltContext.channel_id context)
       (BoltContext.thread_ts context) (BoltContext.thread_ts context) 10) ->
  ensure_session runner (BoltContext.user_id context) thread = None ->
  effects (message create_feedback_block w runner context payload)
  = [ Slack (SetStatus "is thinking..." None);
      Slack (ConversationsReplies (BoltContext.channel_id context)
               (BoltContext.thread_ts context) (BoltContext.thread_ts context) 10);
      Slack (ChatStream channel (BoltContext.team_id context)
               (BoltContext.user_id context) thread);
      Engine (CreateSession "slack_ai_agent" (BoltContext.user_id context) thread);
      Engine (RunAsync (BoltContext.user_id context) thread
                (user_message
                   (last_text
                      (conversations_replies w (BoltContext.channel_id context)
                         (BoltContext.thread_ts context)
                         (BoltContext.thread_ts context) 10)))) ]
    ++ map (fun e => Slack (slack_call_of channel thread e))
         (events_of
            (translate
               (run_async runner (BoltContext.user_id context) thread
                  (user_message
                     (last_text
                        (conversations_replies w (BoltContext.channel_id context)
                           (BoltContext.thread_ts context)
                           (BoltContext.thread_ts context) 10))))))
    ++ [ Slack (StreamerStop create_feedback_block) ]
  /\ escaped (message create_feedback_block w runner context payload) = None.
Proof.
  intros Hch Hts Hq Hr Hs. unfold effects, escaped.
  rewrite (message_effects w runner context payload channel thread Hch Hts Hq Hr Hs).
  split; reflexivity.
Qed.

(** X16: under the same conditions, the texts [message] appends to the
    Slack stream are, in order, exactly the non-empty texts of the parts of
    the raw events whose author is not "user". *)
Theorem message_streams_the_agents_texts w runner context payload channel thread :
  payload !! "channel" = Some channel ->
  payload !! "thread_ts" = Some thread ->
  (forall c, raises w c = None) ->
  Forall (fun m => is_Some (m !! "text"))
    (conversations_replies w (BoltContext.channel_id context)
       (BoltContext.thread_ts context) (BoltContext.thread_ts context) 10) ->
  ensure_session runner (BoltContext.user_id context) thread = None ->
  appended (effects (message create_feedback_block w runner context payload))
  = concat
      (map content_texts
         (run_async runner (BoltContext.user_id context) thread
            (user_message
               (last_text
                  (conversations_replies w (BoltContext.channel_id context)
                     (BoltContext.thread_ts context)
                     (BoltContext.thread_ts context) 10))))).
Proof.
  intros Hch Hts Hq Hr Hs. unfold effects.
  rewrite (message_effects w runner context payload channel thread Hch Hts Hq Hr Hs).
  cbn [snd]. unfold appended at 1. rewrite !omap_app.
  fold (appended (map (fun e => Slack (slack_call_of (Blocks := Blocks) channel thread e))
                      (events_of
                         (translate
                            (run_async runner (BoltContext.user_id context) thread
                               (user_message
                                  (last_text
                                     (conversations_replies w
                                        (BoltContext.channel_id context)
                                        (BoltContext.thread_ts context)
                                        (BoltContext.thread_ts context) 10)))))))).
  rewrite appended_forwarded. cbn. rewrite app_nil_r.
  apply consume_contents.
Qed.

(** X17: what [message] does with incomplete input. Without "channel" or
    without "thread_ts" in the payload its only effect is the warning that
    names the key; with a message without "text" in the thread it has set
    the status and fetched the thread, then warns of 'text', having opened
    no stream and asked nothing of the runner. *)
Theorem message_reports_what_is_missing w runner context payload :
  (payload !! "channel" = None ->
   effects (message create_feedback_block w runner context payload)
   = [ Slack (Say ":warning: Something went wrong! ('channel')") ])
  /\ (is_Some (payload !! "channel") -> payload !! "thread_ts" = None ->
      effects (message create_feedback_block w runner context payload)
      = [ Slack (Say ":warning: Something went wrong! ('thread_ts')") ])
  /\ (is_Some (payload !! "channel") -> is_Some (payload !! "thread_ts") ->
      (forall c, raises w c = None) ->
      Exists (fun m => m !! "text" = None)
        (conversations_replies w (BoltContext.channel_id context)
           (BoltContext.thread_ts context) (BoltContext.thread_ts context) 10) ->
      effects (message create_feedback_block w runner context payload)
      = [ Slack (SetStatus "is thinking..." None);
          Slack (ConversationsReplies (BoltContext.channel_id context)
                   (BoltContext.thread_ts context)
                   (BoltContext.thread_ts context) 10);
          Slack (Say ":warning: Something went wrong! ('text')") ]).
Proof.
  split; [|split].
  - intros Hch. unfold effects, message, try_except.
    rewrite (act_bind_raise _ _ _ _ _ (item_missing payload "channel" [] Hch)).
    reflexivity.
  - intros [channel Hch] Hts. unfold effects, message, try_except.
    rewrite (act_bind_ok _ _ _ _ _ (item_ok payload "channel" channel [] Hch)).
    rewrite (act_bind_raise _ _ _ _ _ (item_missing payload "thread_ts" [] Hts)).
    reflexivity.
  - intros [channel Hch] [thread Hts] Hq Hr. unfold effects, message, try_except.
    rewrite (act_bind_ok _ _ _ _ _ (item_ok payload "channel" channel [] Hch)).
    rewrite (act_bind_ok _ _ _ _ _ (item_ok payload "thread_ts" thread [] Hts)).
    rewrite (act_bind_ok _ _ _ _ _ (call_quiet w _ [] (Hq _))).
    rewrite (act_bind_ok _ _ _ _ _ (call_quiet w _ _ (Hq _))).
    rewrite (act_bind_raise _ _ _ _ _ (messages_in_thread_missing _ _ Hr)).
    reflexivity.
Qed.

Lemma try_except_escapes (body : @Act Blocks unit) w e :
  escaped (try_except body (fun e0 => call w (Say (warning e0)))) = Some e ->
  isinstance_Exception e = false
  \/ exists e0, raises w (Say (warning e0)) = Some e.
Proof.
  unfold escaped, try_except. destruct (body []) as [[e0|[]] done1]; cbn.
  - destruct (isinstance_Exception e0) eqn:He0; cbn.
    + destruct (raises w (Say (warning e0))) as [e1|] eqn:Hs; [|discriminate].
      intros H. injection H as <-. right. exists e0. exact Hs.
    + intros H. injection H as <-. left. exact He0.
  - discriminate.
Qed.

(** X18: [message] and [respond_in_assistant_thread] let no [Exception]
    out: whatever the payload, the thread and the runner, what they raise is
    either not an [Exception] or was raised by the [say] of the warning
    itself. *)
Theorem handlers_let_no_exception_out w runner context payload (e : PyExc) :
  (escaped (message create_feedback_block w runner context payload) = Some e ->
   isinstance_Exception e = false
   \/ exists e0, raises w (Say (warning e0)) = Some e)
  /\ (escaped (respond_in_assistant_thread create_feedback_block w context payload)
      = Some e ->
      isinstance_Exception e = false
      \/ exists e0, raises w (Say (warning e0)) = Some e).
Proof. split; apply try_except_escapes. Qed.

Lemma keeps_off_ret {A} (a : A) : keeps_off (act_ret (Blocks := Blocks) a).
Proof. intros done H. exact H. Qed.

Lemma keeps_off_raise {A} (e : PyExc) : keeps_off (act_raise (Blocks := Blocks) (A := A) e).
Proof. intros done H. exact H. Qed.

Lemma keeps_off_item (d : gmap string string) key :
  keeps_off (item (Blocks := Blocks) d key).
Proof. intros done H. unfold item. destruct (d !! key); exact H. Qed.

Lemma keeps_off_call w (c : @SlackCall Blocks) :
  ~ reaches_engine_or_stream (Slack c) -> keeps_off (call w c).
Proof.
  intros Hc done H. unfold call. cbn. apply Forall_app. split; [exact H|].
  repeat constructor. exact Hc.
Qed.

Lemma keeps_off_bind {A B} (m : @Act Blocks A) (k : A -> @Act Blocks B) :
  keeps_off m -> (forall a, keeps_off (k a)) -> keeps_off (act_bind m k).
Proof.
  intros Hm Hk done H. unfold act_bind. specialize (Hm done H).
  destruct (m done) as [[e|a] done1]; [exact Hm|]. apply Hk, Hm.
Qed.

Lemma keeps_off_bind_raise {A B} (e : PyExc) (k : A -> @Act Blocks B) :
  keeps_off (act_bind (act_raise e) k).
Proof. intros done H. exact H. Qed.

Lemma keeps_off_try (body : @Act Blocks unit) (handler : PyExc -> @Act Blocks unit) :
  keeps_off body -> (forall e, keeps_off (handler e)) ->
  keeps_off (try_except body handler).
Proof.
  intros Hb Hh done H. unfold try_except. specialize (Hb done H).
  destruct (body done) as [[e|a] done1]; [|exact Hb].
  destruct (isinstance_Exception e); [apply Hh, Hb|exact Hb].
Qed.

Lemma keeps_off_messages_in_thread (replies : list (gmap string string)) :
  keeps_off (messages_in_thread (Blocks := Blocks) replies).
Proof.
  intros done H. destruct (messages_in_thread_silent replies done) as [r ->].
  exact H.
Qed.

Lemma respond_keeps_off w context payload :
  keeps_off (respond_in_assistant_thread create_feedback_block w context payload).
Proof.
  unfold respond_in_assistant_thread.
  apply keeps_off_try; [|intros e; apply keeps_off_call; cbn; tauto].
  apply keeps_off_bind; [apply keeps_off_item|intros channel].
  apply keeps_off_bind; [apply keeps_off_item|intros thread].
  apply keeps_off_bind; [apply keeps_off_call; cbn; tauto|intros _].
  apply keeps_off_bind; [apply keeps_off_call; cbn; tauto|intros _].
  apply keeps_off_bind; [apply keeps_off_messages_in_thread|intros messages].
  apply keeps_off_bind; [apply keeps_off_call; cbn; tauto|intros _].
  apply keeps_off_bind_raise.
Qed.

(** X19: [respond_in_assistant_thread] never reaches the runner and never
    writes to the stream it opens: whatever the payload, the thread and the
    calls that raise, it makes no call on the runner, appends nothing and
    does not stop the stream. With a complete payload and thread and no call
    that raises, it sets the status, fetches the thread, opens the stream
    and says the warning of the object that is not iterable. *)
Theorem respond_in_assistant_thread_never_streams w context payload :
  Forall (fun eff => ~ reaches_engine_or_stream eff)
    (effects (respond_in_assistant_thread create_feedback_block w context payload))
  /\ (forall channel thread,
        payload !! "channel" = Some channel ->
        payload !! "thread_ts" = Some thread ->
        (forall c, raises w c = None) ->
        Forall (fun m => is_Some (m !! "text"))
          (conversations_replies w (BoltContext.channel_id context)
             (BoltContext.thread_ts context) (BoltContext.thread_ts context) 10) ->
        effects (respond_in_assistant_thread create_feedback_block w context payload)
        = [ Slack (SetStatus "thinking..."
                     (Some [ "Teaching the hamsters to type faster…";
                             "Untangling the internet cables…";
                             "Consulting the office goldfish…";
                             "Polishing up the response just for you…";
                             "Convincing the AI to stop overthinking…" ]));
            Slack (ConversationsReplies (BoltContext.channel_id context)
                     (BoltContext.thread_ts context)
                     (BoltContext.thread_ts context) 10);
            Slack (ChatStream channel (BoltContext.team_id context)
                     (BoltContext.user_id context) thread);
            Slack (Say ":warning: Something went wrong! ('async_generator' object is not iterable)") ]).
Proof.
  split.
  - apply (respond_keeps_off w context payload []). constructor.
  - intros channel thread Hch Hts Hq Hr.
    unfold effects, respond_in_assistant_thread, try_except.
    rewrite (act_bind_ok _ _ _ _ _ (item_ok payload "channel" channel [] Hch)).
    rewrite (act_bind_ok _ _ _ _ _ (item_ok payload "thread_ts" thread [] Hts)).
    rewrite (act_bind_ok _ _ _ _ _ (call_quiet w _ [] (Hq _))).
    rewrite (act_bind_ok _ _ _ _ _ (call_quiet w _ _ (Hq _))).
    rewrite (act_bind_ok _ _ _ _ _ (messages_in_thread_ok _ _ Hr)).
    rewrite (act_bind_ok _ _ _ _ _ (call_quiet w _ _ (Hq _))).
    reflexivity.
Qed.

Lemma normalized_lookup (replies : list (gmap string string)) i m text :
  Forall (fun m => is_Some (m !! "text")) replies ->
  replies !! i = Some m -> m !! "text" = Some text ->
  normalized replies !! i = Some (thread_message m text).
Proof.
  intros H. revert i. induction H as [|m0 replies [text0 Hm0] _ IH]; intros i Hi Hm.
  - discriminate.
  - rewrite (normalized_cons m0 replies text0 Hm0). destruct i as [|i].
    + cbn in Hi. injection Hi as ->. rewrite Hm in Hm0. injection Hm0 as ->.
      reflexivity.
    + cbn in Hi |- *. apply IH; assumption.
Qed.

(** X20: the thread handed to [call_llm] has one message for each message of
    the Slack thread, in the same order, with role "assistant" when the
    Slack message has a "bot_id" and "user" otherwise, and with the text as
    content; building it has no effect of its own; a Slack message without
    "text" makes it raise [KeyError('text')]. *)
Theorem thread_is_normalized (replies : list (gmap string string)) done :
  (Forall (fun m => is_Some (m !! "text")) replies ->
   exists messages,
     messages_in_thread (Blocks := Blocks) replies done = (inr messages, done)
     /\ length messages = length replies
     /\ forall i m text,
          replies !! i = Some m -> m !! "text" = Some text ->
          messages !! i
          = Some {[ "role" := match m !! "bot_id" with
                              | None => "user"
                              | Some _ => "assistant"
                              end;
                    "content" := text ]})
  /\ (Exists (fun m => m !! "text" = None) replies ->
      messages_in_thread (Blocks := Blocks) replies done
      = (inl (KeyError "text"), done)).
Proof.
  split.
  - intros H. exists (normalized replies). split; [|split].
    + apply messages_in_thread_ok, H.
    + apply normalized_length, H.
    + intros i m text. apply normalized_lookup, H.
  - apply messages_in_thread_missing.
Qed.

End listener_facts.

Lemma message_runs_the_turn_witness :
  escaped (message tt sample_world (scripted scenario_A) sample_context sample_payload)
  = None.
Proof.
  refine (proj2 (message_runs_the_turn tt sample_world (scripted scenario_A)
                   sample_context sample_payload "D1" "1700000000.000100"
                   eq_refl eq_refl (fun _ => eq_refl) _ eq_refl)).
  repeat constructor; eexists; reflexivity.
Defined.

Lemma message_streams_the_agents_texts_witness :
  appended (effects (message tt sample_world (scripted scenario_A)
                       sample_context sample_payload))
  = ["Result: 4"].
Proof.
  refine (message_streams_the_agents_texts tt sample_world (scripted scenario_A)
            sample_context sample_payload "D1" "1700000000.000100"
            eq_refl eq_refl (fun _ => eq_refl) _ eq_refl).
  repeat constructor; eexists; reflexivity.
Defined.

Lemma message_reports_what_is_missing_witness :
  effects (message tt textless_world (scripted scenario_A) sample_context sample_payload)
  = [ Slack (SetStatus "is thinking..." None);
      Slack (ConversationsReplies "D1" "1700000000.000100" "1700000000.000100" 10);
      Slack (Say ":warning: Something went wrong! ('text')") ].
Proof.
  refine (proj2 (proj2 (message_reports_what_is_missing tt textless_world
                          (scripted scenario_A) sample_context sample_payload))
            _ _ (fun _ => eq_refl) _).
  - eexists; reflexivity.
  - eexists; reflexivity.
  - do 3 apply Exists_cons_tl. apply Exists_cons_hd. reflexivity.
Defined.

Lemma respond_in_assistant_thread_never_streams_witness :
  effects (respond_in_assistant_thread tt sample_world sample_context sample_payload)
  = [ Slack (SetStatus "thinking..."
               (Some [ "Teaching the hamsters to type faster…";
                       "Untangling the internet cables…";
                       "Consulting the office goldfish…";
                       "Polishing up the response just for you…";
                       "Convincing the AI to stop overthinking…" ]));
      Slack (ConversationsReplies "D1" "1700000000.000100" "1700000000.000100" 10);
      Slack (ChatStream "D1" "T1" "U1" "1700000000.000100");
      Slack (Say ":warning: Something went wrong! ('async_generator' object is not iterable)") ].
Proof.
  refine (proj2 (respond_in_assistant_thread_never_streams tt sample_world
                   sample_context sample_payload)
            "D1" "1700000000.000100" eq_refl eq_refl (fun _ => eq_refl) _).
  repeat constructor; eexists; reflexivity.
Defined.

Lemma thread_is_normalized_witness :
  exists messages,
    messages_in_thread (Blocks := unit) sample_replies [] = (inr messages, [])
    /\ length messages = 3%nat.
Proof.
  destruct (proj1 (thread_is_normalized (Blocks := unit) sample_replies []))
    as (messages & H1 & H2 & _).
  - repeat constructor; eexists; reflexivity.
  - exists messages. split; [exact H1|exact H2].
Defined.

Lemma handlers_let_no_exception_out_witness :
  exists e0,
    raises refusing_world (Say (warning e0))
    = Some (OtherException "SlackApiError" "ratelimited").
Proof.
  destruct (proj1 (handlers_let_no_exception_out tt refusing_world
                     (scripted scenario_A) sample_context sample_payload
                     (OtherException "SlackApiError" "ratelimited")) eq_refl)
    as [H|H]; [discriminate H|exact H].
Defined.

Section stream_facts.
Context {Blocks : Type}.


End stream_facts.


Lemma mention_thread_ts_threaded (event : gmap string string) (thread : string) :
  event !! "thread_ts" = Some thread -> thread <> "" ->
  mention_thread_ts event = Some thread.
Proof.
  intros H Hne. unfold mention_thread_ts. rewrite H.
  destruct thread; [congruence|reflexivity].
Qed.

(** X22: the session of a mention. For a mention inside a thread the runner
    is asked to create, and to run the turn on, the session named by the
    thread's timestamp, whatever the mention's own timestamp, so that the
    mentions of one thread share a session; for a mention outside a thread
    it is the session named by the mention's timestamp. In both cases the
    text handed to the runner is the text of the mention. *)
Theorem mention_session
    (runner : Runner) (event : gmap string string) (uid text : string) :
  (forall thread, event !! "thread_ts" = Some thread -> thread <> "" ->
     Forall (fun c => call_session_id c = thread)
       (engine_calls (mention_turn runner event uid text)))
  /\ (forall ts, event !! "thread_ts" = None -> event !! "ts" = Some ts ->
        Forall (fun c => call_session_id c = ts)
          (engine_calls (mention_turn runner event uid text)))
  /\ (surfaced (mention_turn runner event uid text) = None ->
      forwarded (mention_turn runner event uid text) = Some (user_message text)).
Proof.
  unfold mention_turn, call_llm.
  change (last_message (mention_messages text) !! "content") with (Some text).
  split; [|split].
  - intros thread Ht Hne. rewrite (mention_thread_ts_threaded event thread Ht Hne).
    cbn [resolve_session_id].
    destruct (ensure_session runner uid thread); repeat constructor.
  - intros ts Ht Hts. unfold mention_thread_ts. rewrite Ht, Hts.
    cbn [truthy resolve_session_id].
    destruct (ensure_session runner uid ts); repeat constructor.
  - destruct (ensure_session runner uid (resolve_session_id uid (mention_thread_ts event)));
      [discriminate|]. reflexivity.
Qed.

Lemma mention_session_witness :
  Forall (fun c => call_session_id c = "1700000000.000100")
    (engine_calls
       (mention_turn (scripted scenario_A)
          {[ "thread_ts" := "1700000000.000100"; "ts" := "1700000555.000200" ]}
          "U1" "what is 2+2?")).
Proof.
  apply (proj1 (mention_session (scripted scenario_A)
                  {[ "thread_ts" := "1700000000.000100"; "ts" := "1700000555.000200" ]}
                  "U1" "what is 2+2?") "1700000000.000100");
    [reflexivity|discriminate].
Defined.
